(** * anime2sd.folder_manipulation: metadata synchronisation and export

    A shallow embedding of [src/anime2sd/folder_manipulation.py]:
    [save_characters_to_meta], [resize_image], [save_image_and_meta] and
    [resize_character_images], together with the Python string and
    [os.path] primitives they call.

    Conventions of the embedding.
    - Python [str] is [string]; the path functions are the POSIX ones.
    - A metadata file is a parsed JSON object, [gmap string json]; the
      metadata files on disk are a [gmap string (gmap string json)] keyed
      by file path.  [os.path.exists] is a lookup, [json.load] returns the
      stored object and [json.dump] inserts it.
    - Statements that can raise live in a state-and-exception monad whose
      outcome keeps the state reached when the exception was raised: what
      was written to disk before a failure stays written.
    - [logging.info] and [tqdm] have no effect on the files and are left
      out. *)

From Stdlib Require Import ZArith QArith Qround Lqa Ascii.
From stdpp Require Import gmap strings list fin_maps.

#[local] Set Warnings "-clear-no-such-hyp".

Local Open Scope string_scope.
Local Open Scope list_scope.
Local Open Scope Z_scope.
Local Open Scope stdpp_scope.

(** ** Python string primitives *)

Module PyStr.

(** [s.startswith(p)]. *)
Definition startswith (s p : string) : bool := String.prefix p s.

(** [s[i:]]. *)
Fixpoint drop (i : nat) (s : string) : string :=
  match i, s with
  | O, _ => s
  | S _, EmptyString => EmptyString
  | S k, String _ r => drop k r
  end.

(** [s[:i]]. *)
Fixpoint take (i : nat) (s : string) : string :=
  match i, s with
  | O, _ => EmptyString
  | S _, EmptyString => EmptyString
  | S k, String a r => String a (take k r)
  end.

(** [s.endswith(suf)]. *)
Definition endswith (s suf : string) : bool :=
  (String.length suf <=? String.length s)%nat
  && String.eqb (drop (String.length s - String.length suf) s) suf.

(** [s.rfind(c)] for a one-character [c]: the last index of [c], or [-1]. *)
Fixpoint rfind_from (c : ascii) (i : Z) (s : string) : Z :=
  match s with
  | EmptyString => -1
  | String a r =>
      let j := rfind_from c (i + 1) r in
      if (0 <=? j)%Z then j else if Ascii.eqb a c then i else -1
  end.

Definition rfind (c : ascii) (s : string) : Z := rfind_from c 0 s.

(** [s.split(c)] for a one-character separator. *)
Fixpoint split (c : ascii) (s : string) : list string :=
  match s with
  | EmptyString => [EmptyString]
  | String a r =>
      if Ascii.eqb a c then EmptyString :: split c r
      else match split c r with
           | h :: t => String a h :: t
           | [] => [String a EmptyString]
           end
  end.

(** [sep.join(l)]. *)
Definition join (sep : string) (l : list string) : string := String.concat sep l.

(** [c.lower()] on ASCII; bytes outside [A-Z] are unchanged. *)
Definition lower_ascii (a : ascii) : ascii :=
  let n := nat_of_ascii a in
  if ((65 <=? n) && (n <=? 90))%nat then ascii_of_nat (n + 32) else a.

Fixpoint lower (s : string) : string :=
  match s with
  | EmptyString => EmptyString
  | String a r => String (lower_ascii a) (lower r)
  end.

(** [sub in s] for strings. *)
Fixpoint contains (s sub : string) : bool :=
  String.prefix sub s
  || match s with
     | EmptyString => false
     | String _ r => contains r sub
     end.

(** [s.replace(old, new)] for a non-empty [old]: occurrences are replaced
    from left to right and do not overlap.  [skip] counts the characters
    of an occurrence already replaced that are still to be passed over. *)
Fixpoint replace_from (old new : string) (skip : nat) (s : string) : string :=
  match s with
  | EmptyString => EmptyString
  | String a r =>
      match skip with
      | S k => replace_from old new k r
      | O =>
          if String.prefix old s
          then new +:+ replace_from old new (String.length old - 1) r
          else String a (replace_from old new O r)
      end
  end.

Definition replace (s old new : string) : string := replace_from old new O s.

End PyStr.

(** ** [os.path] (posixpath) *)

Module OsPath.

(** [os.path.join(a, b)]. *)
Definition join (a b : string) : string :=
  if PyStr.startswith b "/" then b
  else if String.eqb a "" || PyStr.endswith a "/" then a +:+ b
  else a +:+ "/" +:+ b.

(** [os.path.basename(p)]: everything after the last slash. *)
Definition basename (p : string) : string :=
  PyStr.drop (Z.to_nat (PyStr.rfind "/"%char p + 1)) p.

(** The loop of [genericpath._splitext] that skips the leading dots of the
    file name: [true] when some character in [p[i:i+n]] is not a dot. *)
Fixpoint has_non_dot (n : nat) (s : string) : bool :=
  match n, s with
  | S k, String a r => negb (Ascii.eqb a "."%char) || has_non_dot k r
  | _, _ => false
  end.

(** [os.path.splitext(p)]. *)
Definition splitext (p : string) : string * string :=
  let sepIndex := PyStr.rfind "/"%char p in
  let dotIndex := PyStr.rfind "."%char p in
  if (sepIndex <? dotIndex)%Z
     && has_non_dot (Z.to_nat (dotIndex - (sepIndex + 1)))
                    (PyStr.drop (Z.to_nat (sepIndex + 1)) p)
  then (PyStr.take (Z.to_nat dotIndex) p, PyStr.drop (Z.to_nat dotIndex) p)
  else (p, "").

End OsPath.

(** ** JSON values and Python exceptions *)

#[warnings="-register-all"]
Inductive json : Type :=
  | JNull
  | JBool (b : bool)
  | JNum (n : Z)
  | JStr (s : string)
  | JArr (l : list json)
  | JObj (kvs : list (string * json)).

(** Truth value of a JSON value used as a Python condition. *)
Definition truthy (j : json) : bool :=
  match j with
  | JNull => false
  | JBool b => b
  | JNum n => negb (n =? 0)%Z
  | JStr s => negb (String.eqb s "")
  | JArr l => match l with [] => false | _ :: _ => true end
  | JObj kvs => match kvs with [] => false | _ :: _ => true end
  end.

(** Python's [x == char_name] for a string [char_name] and a decoded JSON
    value [x]: only an equal string is equal. *)
Definition json_eq_str (c : string) (j : json) : bool :=
  match j with
  | JStr s => String.eqb c s
  | _ => false
  end.

Inductive exn : Type :=
  | ValueError (msg : string)
  | KeyError (key : string)
  | TypeError
  | AttributeError
  | IndexError
  | ZeroDivisionError
  | CvError (msg : string).

(** ** State and exceptions *)

Inductive outcome (St A : Type) : Type :=
  | Ok (a : A) (s : St)
  | Raise (e : exn) (s : St).
Arguments Ok {St A} a s.
Arguments Raise {St A} e s.

Definition M (St A : Type) : Type := St -> outcome St A.

#[export] Instance M_ret {St} : MRet (M St) := fun A a s => Ok a s.
#[export] Instance M_bind {St} : MBind (M St) := fun A B f m s =>
  match m s with
  | Ok a s' => f a s'
  | Raise e s' => Raise e s'
  end.

Definition raise {St A} (e : exn) : M St A := fun s => Raise e s.
Definition gets {St A} (f : St -> A) : M St A := fun s => Ok (f s) s.
Definition modify {St} (f : St -> St) : M St unit := fun s => Ok tt (f s).

(** The state a computation leaves behind, whether it returned or raised. *)
Definition final_state {St A} (o : outcome St A) : St :=
  match o with
  | Ok _ s => s
  | Raise _ s => s
  end.

Definition returned {St A} (o : outcome St A) : bool :=
  match o with
  | Ok _ _ => true
  | Raise _ _ => false
  end.

(** [for x in l: body(x)]; a [continue] in the body is a normal return of
    [body]. *)
Fixpoint for_each {St A} (body : A -> M St unit) (l : list A) : M St unit :=
  match l with
  | [] => mret tt
  | x :: r => body x ;; for_each body r
  end.

(** ** The Label Synchronizer: [save_characters_to_meta] *)

Module Sync.

(** One entry of [os.listdir(crop_dir)]: its name and, when
    [os.path.isdir] holds of it, the entries [os.listdir] gives for it. *)
Record dir_entry : Type := DirEntry {
  entry_name : string;
  entry_files : option (list string)
}.

(** The state the function works on: the metadata files on disk and the
    local variable [encountered_paths]. *)
Record sync_state : Type := SyncState {
  meta_files : gmap string (gmap string json);
  encountered_paths : gset string
}.

Definition image_exts : list string := [".png"; ".jpg"; ".jpeg"; ".webp"; ".gif"].

Definition missing_crop_meta : exn :=
  ValueError "All the cropped files should have corresponding metadata".

Section Synchronizer.

(** [anime2sd.basics] is not part of the sources at hand: the two helpers
    imported from it are parameters of the development.
    [get_corr_meta_names p] returns the path and the file name of the
    metadata file of image [p]; [default_metadata p] builds a record. *)
Variable get_corr_meta_names : string -> string * string.
Variable default_metadata : string -> gmap string json.

(** [with open(p, 'w') as f: json.dump(d, f, indent=4)]. *)
Definition dump_meta (p : string) (d : gmap string json) : M sync_state unit :=
  modify (fun st => SyncState (<[p := d]> (meta_files st)) (encountered_paths st)).

(** Lines 74-76: the list is reset on the first encounter of the path. *)
Definition reset_on_first_encounter (original_path : string)
    (orig_meta_data : gmap string json) : M sync_state (gmap string json) :=
  fun st =>
    if decide (original_path ∈ encountered_paths st) then Ok orig_meta_data st
    else Ok (<["characters" := JArr []]> orig_meta_data)
            (SyncState (meta_files st) ({[original_path]} ∪ encountered_paths st)).

(** Lines 79-80: [if char_name not in d['characters']:
    d['characters'].append(char_name)]. *)
Definition append_character (char_name : string)
    (orig_meta_data : gmap string json) : M sync_state (gmap string json) :=
  match orig_meta_data !! "characters" with
  | None => raise (KeyError "characters")
  | Some (JArr l) =>
      if existsb (json_eq_str char_name) l then mret orig_meta_data
      else mret (<["characters" := JArr (l ++ [JStr char_name])]> orig_meta_data)
  | Some (JStr s) =>
      if PyStr.contains s char_name then mret orig_meta_data
      else raise AttributeError
  | Some (JObj kvs) =>
      if existsb (fun kv => String.eqb char_name kv.1) kvs then mret orig_meta_data
      else raise AttributeError
  | Some _ => raise TypeError
  end.

(** Lines 60-84, for a crop record that has a ['path'] field. *)
Definition update_original (char_name : string) (path_field : json)
    : M sync_state unit :=
  match path_field with
  | JStr original_path =>
      let original_meta_path := (get_corr_meta_names original_path).1 in
      on_disk ← gets (fun st => meta_files st !! original_meta_path);
      let orig_meta_data :=
        match on_disk with
        | Some d => d
        | None => default_metadata original_path
        end in
      orig_meta_data ← reset_on_first_encounter original_path orig_meta_data;
      orig_meta_data ← append_character char_name orig_meta_data;
      dump_meta original_meta_path orig_meta_data
  | _ => raise TypeError
  end.

(** Lines 43-88: the body of the inner loop once [img_file] has passed
    the extension test; [img_path] is
    [os.path.join(folder_path, img_file)]. *)
Definition sync_crop (char_name img_path : string) : M sync_state unit :=
  let meta_file_path := (get_corr_meta_names img_path).1 in
  on_disk ← gets (fun st => meta_files st !! meta_file_path);
  match on_disk with
  | None => raise missing_crop_meta
  | Some meta_data =>
      let meta_data := <["characters" := JArr [JStr char_name]]> meta_data in
      match meta_data !! "path" with
      | Some path_field => update_original char_name path_field
      | None => mret tt
      end;;
      dump_meta meta_file_path meta_data
  end.

(** Lines 35-88: the body of the inner loop. *)
Definition sync_file (char_name folder_path img_file : string)
    : M sync_state unit :=
  let '(img_name, img_ext) := OsPath.splitext img_file in
  if negb (bool_decide (PyStr.lower img_ext ∈ image_exts)) then mret tt
  else sync_crop char_name (OsPath.join folder_path img_file).

(** [char_name = '_'.join(folder_name.split('_')[1:])]. *)
Definition char_name_of (folder_name : string) : string :=
  PyStr.join "_" (tail (PyStr.split "_"%char folder_name)).

(** Lines 24-88: the body of the outer loop. *)
Definition sync_folder (crop_dir : string) (e : dir_entry) : M sync_state unit :=
  let char_name := char_name_of (entry_name e) in
  if PyStr.startswith char_name "noise" then mret tt
  else
    let folder_path := OsPath.join crop_dir (entry_name e) in
    match entry_files e with
    | None => mret tt
    | Some files => for_each (sync_file char_name folder_path) files
    end.

Definition sync_loop (crop_dir : string) (listing : list dir_entry)
    : M sync_state unit :=
  for_each (sync_folder crop_dir) listing.

(** [save_characters_to_meta(crop_dir)], as a function of the directory
    listing and of the metadata files on disk. *)
Definition save_characters_to_meta (crop_dir : string)
    (listing : list dir_entry)
    : M (gmap string (gmap string json)) unit :=
  fun files =>
    match sync_loop crop_dir listing (SyncState files ∅) with
    | Ok _ st => Ok tt (meta_files st)
    | Raise e st => Raise e (meta_files st)
    end.

End Synchronizer.

(** ** The synchronizer as a loop over crops *)

(** The files of a crop folder that pass the extension test of lines
    36-41. *)
Definition is_image_file (img_file : string) : bool :=
  bool_decide (PyStr.lower (OsPath.splitext img_file).2 ∈ image_exts).

(** The crops a run processes, in processing order, as pairs of the
    derived character name and the image path. *)
Definition folder_crops (crop_dir : string) (e : dir_entry)
    : list (string * string) :=
  let char_name := char_name_of (entry_name e) in
  if PyStr.startswith char_name "noise" then []
  else match entry_files e with
       | None => []
       | Some files =>
           map (fun f => (char_name,
                          OsPath.join (OsPath.join crop_dir (entry_name e)) f))
               (List.filter is_image_file files)
       end.

Definition crops (crop_dir : string) (listing : list dir_entry)
    : list (string * string) :=
  flat_map (folder_crops crop_dir) listing.

(** The value of a field of the metadata file at path [p], if any. *)
Definition field_at (key : string) (files : gmap string (gmap string json))
    (p : string) : option json :=
  files !! p ≫= (fun d => d !! key).

Abbreviation chars_at := (field_at "characters").
Abbreviation path_at := (field_at "path").

(** The specification's "deduplicated, insertion-ordered" list: every name
    once, at the place of its first occurrence. *)
Fixpoint dedup_in_order (l : list string) : list string :=
  match l with
  | [] => []
  | x :: r => x :: filter (fun y => y ≠ x) (dedup_in_order r)
  end.

Section SynchronizerViews.

Variable get_corr_meta_names : string -> string * string.
Variable default_metadata : string -> gmap string json.

Abbreviation meta_path p := (get_corr_meta_names p).1.
Abbreviation crop_step := (sync_crop get_corr_meta_names default_metadata).

(** What lines 79-80 make of the ['characters'] field. *)
Definition appended (char_name : string) (old : option json) : exn + json :=
  match old with
  | None => inl (KeyError "characters")
  | Some (JArr l) =>
      inr (if existsb (json_eq_str char_name) l then JArr l
           else JArr (l ++ [JStr char_name]))
  | Some (JStr s) =>
      if PyStr.contains s char_name then inr (JStr s) else inl AttributeError
  | Some (JObj kvs) =>
      if existsb (fun kv => String.eqb char_name kv.1) kvs then inr (JObj kvs)
      else inl AttributeError
  | Some _ => inl TypeError
  end.

(** The record written back for the crop, the record the original frame
    starts from, and the ['characters'] value the test of line 79 reads. *)
Definition crop_record (char_name : string) (d : gmap string json) :=
  <["characters" := JArr [JStr char_name]]> d.

Definition orig_record (st : sync_state) (original_path : string) :=
  default (default_metadata original_path)
          (meta_files st !! meta_path original_path).

Definition chars_read (st : sync_state) (original_path : string) : option json :=
  if decide (original_path ∈ encountered_paths st)
  then orig_record st original_path !! "characters"
  else Some (JArr []).

Definition sync_crops (l : list (string * string)) : M sync_state unit :=
  for_each (fun c => crop_step c.1 c.2) l.

(** [future S T]: every metadata file of [S] is still there in [T], with
    the same ['path'] field. *)
Definition future (S T : gmap string (gmap string json)) : Prop :=
  forall p, is_Some (S !! p) -> is_Some (T !! p) /\ path_at T p = path_at S p.

(** The first run goes from [S] to its final store [Sn]; the second run
    starts from [Sn] and has reached [S'] at the same crop, with the same
    set [E] of encountered paths. *)
Record rerun_inv (S S' : gmap string (gmap string json)) (E : gset string)
    (Sn : gmap string (gmap string json)) : Prop := RerunInv {
  rerun_files : forall p, is_Some (Sn !! p) ->
    is_Some (S' !! p) /\ path_at S' p = path_at Sn p;
  rerun_encountered : forall P, P ∈ E ->
    is_Some (S !! meta_path P) /\
    chars_at S' (meta_path P) = chars_at S (meta_path P);
  rerun_chars : forall p,
    chars_at S' p = chars_at S p \/ chars_at S' p = chars_at Sn p;
  rerun_no_new : forall p, is_Some (S' !! p) -> is_Some (Sn !! p)
}.

(** Whether the crop record of [c], as found in [files], links to the
    original frame [F]. *)
Definition links_to (files : gmap string (gmap string json)) (F : string)
    (c : string * string) : bool :=
  match path_at files (meta_path c.2) with
  | Some (JStr original_path) => String.eqb original_path F
  | _ => false
  end.

(** The character names derived from the crops of [l] that link to [F], in
    processing order. *)
Definition derived_names (files : gmap string (gmap string json)) (F : string)
    (l : list (string * string)) : list string :=
  fst <$> filter (fun c => links_to files F c) l.

(** The crop [c] has a metadata file in [files], and the metadata file of
    the original frame [F] is kept apart: it is not the file of [c], nor
    the file of another original frame that [c] links to. *)
Definition kept_apart (files : gmap string (gmap string json)) (F : string)
    (c : string * string) : Prop :=
  is_Some (files !! meta_path c.2)
  /\ meta_path c.2 ≠ meta_path F
  /\ match path_at files (meta_path c.2) with
     | Some (JStr original_path) =>
         meta_path original_path = meta_path F -> original_path = F
     | _ => True
     end.

(** What holds of the record of the original frame [F] once the crops
    [done] are processed, in a run started from [files]. *)
Definition frame_inv (files : gmap string (gmap string json)) (F : string)
    (done : list (string * string)) (st : sync_state) : Prop :=
  (F ∈ encountered_paths st ->
   chars_at (meta_files st) (meta_path F) =
   Some (JArr (JStr <$> dedup_in_order (derived_names files F done))))
  /\ (F ∉ encountered_paths st -> derived_names files F done = []).

End SynchronizerViews.

End Sync.
Import Sync.

(** ** The Export Pipeline: [resize_image], [save_image_and_meta],
    [resize_character_images] *)

Module Pipeline.

(** An image as [cv2.imread] returns it in its default mode: an array of
    shape [(height, width, 3)]. *)
Record ndarray : Type := NdArray {
  height : Z;
  width : Z;
  pixels : list Z
}.

(** [img.size], the number of array elements. *)
Definition size (img : ndarray) : Z := height img * width img * 3.

(** OpenCV's [cvRound]: the nearest integer, ties to the even one. *)
Definition cvRound (x : Q) : Z :=
  let f := Qfloor x in
  match (x - inject_Z f ?= 1 # 2)%Q with
  | Lt => f
  | Gt => f + 1
  | Eq => if Z.even f then f else f + 1
  end.

(** What [cv2.imwrite] can do: write the encoded file and return [True],
    return [False] without writing, or raise [cv2.error]. *)
Inductive imwrite_result : Type :=
  | Written (buf : list Byte.byte)
  | NotWritten
  | WriteError (msg : string).

(** The OpenCV primitives the module calls.  They are outside this
    repository: the codec and the area-averaging filter are taken as they
    come.
    - [imdecode buf]: the decoding done by [cv2.imread]; [None] when the
      file is not a readable image ([cv2.imread] then returns [None]).
    - [imencode ext img params]: [cv2.imencode]; [inl msg] when it raises
      [cv2.error].
    - [imwrite_encode filename img]: the encoding done by [cv2.imwrite].
    - [inter_area img h w]: the pixels [cv2.resize] computes with
      [INTER_AREA] for a destination of [h] rows and [w] columns. *)
Record opencv : Type := OpenCV {
  imdecode : list Byte.byte -> option ndarray;
  imencode : string -> ndarray -> list Z -> string + list Byte.byte;
  imwrite_encode : string -> ndarray -> imwrite_result;
  inter_area : ndarray -> Z -> Z -> list Z
}.

Definition IMWRITE_WEBP_QUALITY : Z := 64.

(** The pixel area of an image. *)
Definition area (img : ndarray) : Z := height img * width img.

(** The shorter side of an image. *)
Definition shorter_side (img : ndarray) : Z := Z.min (height img) (width img).

(** The state of the export: the metadata files, the image files, the
    directories asked of [os.makedirs], what was printed, and the raw
    draws the random generator will deliver (zeros once the list is
    used up).  Metadata files and image files are kept in two maps. *)
Record world : Type := World {
  meta : gmap string (gmap string json);
  image_files : gmap string (list Byte.byte);
  made_dirs : list string;
  stdout : list string;
  random_draws : list nat
}.

Definition dump_meta (p : string) (d : gmap string json) : M world unit :=
  modify (fun w => World (<[p := d]> (meta w)) (image_files w) (made_dirs w)
                         (stdout w) (random_draws w)).

Definition write_image_file (p : string) (buf : list Byte.byte) : M world unit :=
  modify (fun w => World (meta w) (<[p := buf]> (image_files w)) (made_dirs w)
                         (stdout w) (random_draws w)).

Definition makedirs (p : string) : M world unit :=
  modify (fun w => World (meta w) (image_files w) (made_dirs w ++ [p])
                         (stdout w) (random_draws w)).

Definition print (line : string) : M world unit :=
  modify (fun w => World (meta w) (image_files w) (made_dirs w)
                         (stdout w ++ [line]) (random_draws w)).

(** The state with one more image file, and with one more printed line. *)
Definition with_image (w : world) (p : string) (buf : list Byte.byte) : world :=
  World (meta w) (<[p := buf]> (image_files w)) (made_dirs w) (stdout w)
        (random_draws w).

Definition with_line (w : world) (line : string) : world :=
  World (meta w) (image_files w) (made_dirs w) (stdout w ++ [line])
        (random_draws w).

(** The state after lines 151-152. *)
Definition prepared (w : world) (dst_dir : string) : world :=
  World (meta w) (image_files w)
        ((made_dirs w ++ [OsPath.join dst_dir "cropped"])
           ++ [OsPath.join dst_dir "full"])
        (stdout w) (random_draws w).

(** The state with one more metadata file. *)
Definition with_meta (w : world) (p : string) (d : gmap string json) : world :=
  World (<[p := d]> (meta w)) (image_files w) (made_dirs w) (stdout w)
        (random_draws w).

(** The line printed at line 125. *)
Definition encoding_report (adjusted_path e : string) : string :=
  "Error encoding the image " +:+ adjusted_path +:+ ": " +:+ e.

(** [random.randbelow(n)]: some number below [n], taken from the next raw
    draw. *)
Definition randbelow (n : nat) : M world nat :=
  fun w =>
    let raw := hd O (random_draws w) in
    Ok (if Nat.eqb n 0 then O else raw mod n)%nat
       (World (meta w) (image_files w) (made_dirs w) (stdout w)
              (tl (random_draws w))).

(** The selection loop of [random.sample]: [result[i] = pool[j];
    pool[j] = pool[n - i - 1]], with [n] the number of pool entries still
    in play. *)
Fixpoint sample_pool {A} (k n : nat) (pool : list A) : M world (list A) :=
  match k with
  | O => mret []
  | S k' =>
      j ← randbelow n;
      match pool !! j, pool !! (n - 1)%nat with
      | Some x, Some y =>
          rest ← sample_pool k' (n - 1)%nat (<[j := y]> pool);
          mret (x :: rest)
      | _, _ => raise IndexError
      end
  end.

(** [random.sample(population, k)].  The standard library switches to a
    set of chosen indices for large populations; the pool loop stands for
    both. *)
Definition random_sample {A} (population : list A) (k : Z) : M world (list A) :=
  let n := length population in
  if (k <? 0) || (Z.of_nat n <? k)
  then raise (ValueError "Sample larger than population or is negative")
  else sample_pool (Z.to_nat k) n population.

(** Lines 202-206. *)
Definition select_frames (nocharacter_frames : list string)
    (n_nocharacter_frames : Z) : M world (list string) :=
  if n_nocharacter_frames <? Z.of_nat (length nocharacter_frames)
  then random_sample nocharacter_frames n_nocharacter_frames
  else mret nocharacter_frames.

Definition missing_meta_for_export : exn :=
  ValueError "All metadata must exist before resizing to dst".

(** ['characters' in meta_data and meta_data['characters']]. *)
Definition has_characters (meta_data : gmap string json) : bool :=
  match meta_data !! "characters" with
  | Some j => truthy j
  | None => false
  end.

(** An attribute of the result of [cv2.imread] is read: [None] has none. *)
Definition array_of {St} (img : option ndarray) : M St ndarray :=
  match img with
  | Some a => mret a
  | None => raise AttributeError
  end.

Section WithOpenCV.

Variable cv : opencv.
Variable get_corr_meta_names : string -> string * string.
Variable default_metadata : string -> gmap string json.

(** [get_images_recursively] of [anime2sd.basics], not part of the sources
    at hand: the image paths found under a directory, given the image
    files present. *)
Variable get_images_recursively :
  gmap string (list Byte.byte) -> string -> list string.

(** [cv2.imread(path)]. *)
Definition imread (path : string) : M world (option ndarray) :=
  gets (fun w => image_files w !! path ≫= imdecode cv).

(** [cv2.resize(src, None, fx=fx, fy=fy, interpolation=cv2.INTER_AREA)]:
    the destination has [cvRound(cols * fx)] columns and
    [cvRound(rows * fy)] rows; an empty source or destination is refused.
    The scale factor and the products are exact rationals here, where the
    code computes them in IEEE doubles: when a product is exactly halfway
    between two integers the side of the code can differ from this one by
    one pixel (both are within half a pixel of the exact product). *)
Definition cv_resize {St} (src : ndarray) (fx fy : Q) : M St ndarray :=
  let dw := cvRound (inject_Z (width src) * fx) in
  let dh := cvRound (inject_Z (height src) * fy) in
  if (width src <=? 0) || (height src <=? 0) || (dw <=? 0) || (dh <=? 0)
  then raise (CvError "resize")
  else mret (NdArray dh dw (inter_area cv src dh dw)).

(** [resize_image(image, max_size)], lines 91-103. *)
Definition resize_image {St} (image : ndarray) (max_size : Z) : M St ndarray :=
  let height := height image in
  let width := width image in
  if max_size >? Z.min height width then mret image
  else if Z.min height width =? 0 then raise ZeroDivisionError
  else
    let scaling_factor := (inject_Z max_size / inject_Z (Z.min height width))%Q in
    cv_resize image scaling_factor scaling_factor.

(** Lines 134-145 of [save_image_and_meta]. *)
Definition copy_meta (img_path save_dir ext : string) : M world unit :=
  let '(meta_path, meta_filename) := get_corr_meta_names img_path in
  on_disk ← gets (fun w => meta w !! meta_path);
  match on_disk with
  | Some meta_data =>
      match meta_data !! "filename" with
      | None => raise (KeyError "filename")
      | Some (JStr filename) =>
          let meta_data :=
            <["filename" := JStr (PyStr.replace filename ".png" ext)]> meta_data in
          dump_meta (OsPath.join save_dir meta_filename) meta_data
      | Some _ => raise AttributeError
      end
  | None => raise missing_meta_for_export
  end.

(** The destination path of lines 113-118. *)
Definition adjusted_path (img_path save_dir ext : string) : string :=
  let filename := OsPath.basename img_path in
  let base_filename := (OsPath.splitext filename).1 in
  let adjusted_filename := base_filename +:+ ext in
  OsPath.join save_dir adjusted_filename.

(** [save_image_and_meta(img, img_path, save_dir, ext)], lines 106-145.
    The [return] of line 126 leaves the function before the metadata is
    looked at. *)
Definition save_image_and_meta (img : ndarray) (img_path save_dir ext : string)
    : M world unit :=
  let adjusted_path := adjusted_path img_path save_dir ext in
  if String.eqb ext ".webp" then
    match imencode cv ext img [IMWRITE_WEBP_QUALITY; 95] with
    | inl e =>
        print ("Error encoding the image " +:+ adjusted_path +:+ ": " +:+ e)
    | inr buf =>
        write_image_file adjusted_path buf;;
        copy_meta img_path save_dir ext
    end
  else
    (match imwrite_encode cv adjusted_path img with
     | Written buf => write_image_file adjusted_path buf
     | NotWritten => mret tt
     | WriteError msg => raise (CvError msg)
     end;;
     copy_meta img_path save_dir ext).

(** Lines 156-176: the body of the loop over the crops. *)
Definition export_crop (dst_dir : string) (max_size : Z) (ext : string)
    (img_path : string) : M world unit :=
  let meta_path := (get_corr_meta_names img_path).1 in
  on_disk ← gets (fun w => meta w !! meta_path);
  match on_disk with
  | Some meta_data =>
      if has_characters meta_data then
        match meta_data !! "path" with
        | None => raise (KeyError "path")
        | Some (JStr original_path) =>
            original_img ← imread original_path;
            cropped_img ← imread img_path;
            cropped ← array_of cropped_img;
            original ← array_of original_img;
            match (inject_Z (size cropped) ?= (1 # 2) * inject_Z (size original))%Q with
            | Gt => mret tt
            | _ =>
                resized_img ← resize_image cropped max_size;
                let save_dir := OsPath.join dst_dir "cropped" in
                save_image_and_meta resized_img img_path save_dir ext
            end
        | Some _ => raise TypeError
        end
      else mret tt
  | None => raise missing_crop_meta
  end.

(** Lines 181-199: the body of the loop over the full frames, which
    returns the list [nocharacter_frames] it has extended. *)
Definition scan_full_frame (max_size : Z) (nocharacter_frames : list string)
    (img_path : string) : M world (list string) :=
  let meta_path := (get_corr_meta_names img_path).1 in
  on_disk ← gets (fun w => meta w !! meta_path);
  match on_disk with
  | Some meta_data =>
      if has_characters meta_data then
        full_img ← imread img_path;
        full ← array_of full_img;
        resized_img ← resize_image full max_size;
        mret nocharacter_frames
      else mret (nocharacter_frames ++ [img_path])
  | None =>
      dump_meta meta_path (default_metadata img_path);;
      mret (nocharacter_frames ++ [img_path])
  end.

Fixpoint scan_full_frames (max_size : Z) (nocharacter_frames : list string)
    (l : list string) : M world (list string) :=
  match l with
  | [] => mret nocharacter_frames
  | img_path :: r =>
      nocharacter_frames ← scan_full_frame max_size nocharacter_frames img_path;
      scan_full_frames max_size nocharacter_frames r
  end.

(** Lines 208-212: the body of the loop over the selected frames. *)
Definition export_frame (dst_dir : string) (max_size : Z) (ext : string)
    (img_path : string) : M world unit :=
  img ← imread img_path;
  img ← array_of img;
  resized_img ← resize_image img max_size;
  let save_dir := OsPath.join dst_dir "full" in
  save_image_and_meta resized_img img_path save_dir ext.

(** Lines 156-176. *)
Definition export_crops (crop_dir dst_dir : string) (max_size : Z)
    (ext : string) : M world unit :=
  crop_images ← gets (fun w => get_images_recursively (image_files w) crop_dir);
  for_each (export_crop dst_dir max_size ext) crop_images.

(** [resize_character_images(crop_dir, full_dir, dst_dir, max_size, ext,
    n_nocharacter_frames)]. *)
Definition resize_character_images (crop_dir full_dir dst_dir : string)
    (max_size : Z) (ext : string) (n_nocharacter_frames : Z) : M world unit :=
  makedirs (OsPath.join dst_dir "cropped");;
  makedirs (OsPath.join dst_dir "full");;
  export_crops crop_dir dst_dir max_size ext;;
  full_images ← gets (fun w => get_images_recursively (image_files w) full_dir);
  nocharacter_frames ← scan_full_frames max_size [] full_images;
  selected_frames ← select_frames nocharacter_frames n_nocharacter_frames;
  for_each (export_frame dst_dir max_size ext) selected_frames.

(** The bytes the image-writing step of [save_image_and_meta] (lines
    120-132) puts at the destination path, when it writes. *)
Definition encoded_image (img : ndarray) (adjusted_path ext : string)
    : option (list Byte.byte) :=
  if String.eqb ext ".webp" then
    match imencode cv ext img [IMWRITE_WEBP_QUALITY; 95] with
    | inr buf => Some buf
    | inl _ => None
    end
  else
    match imwrite_encode cv adjusted_path img with
    | Written buf => Some buf
    | _ => None
    end.

(** The image-writing step hands over to the metadata step: no
    ['.webp'] encoding failure has ended the call and [cv2.imwrite] has
    not raised. *)
Definition reaches_metadata (img : ndarray) (adjusted_path ext : string) : bool :=
  if String.eqb ext ".webp" then
    match imencode cv ext img [IMWRITE_WEBP_QUALITY; 95] with
    | inr _ => true
    | inl _ => false
    end
  else
    match imwrite_encode cv adjusted_path img with
    | WriteError _ => false
    | _ => true
    end.

End WithOpenCV.

End Pipeline.
Import Pipeline.

(** ** Instances of the helpers of [anime2sd.basics] *)

(** Modelled from the spec: [get_corr_meta_names] of [anime2sd.basics] is
    "a pure, deterministic function ImagePath -> MetadataPath"; this
    instance, used in the examples, puts a hidden [.<name>_meta.json] file
    next to the image. *)
Definition meta_names_beside (img_path : string) : string * string :=
  let base := (OsPath.splitext img_path).1 in
  let meta_filename := "." +:+ OsPath.basename base +:+ "_meta.json" in
  let dir := PyStr.take (Z.to_nat (PyStr.rfind "/"%char img_path + 1)) img_path in
  (dir +:+ meta_filename, meta_filename).

(** Modelled from the spec: [default_metadata] of [anime2sd.basics]
    produces "a record with characters empty/absent and filename derived
    from path"; this instance is used in the examples. *)
Definition default_record (img_path : string) : gmap string json :=
  {[ "filename" := JStr (OsPath.basename img_path) ]}.

(** Modelled from the spec: [get_images_recursively] of [anime2sd.basics]
    does the "recursive discovery" of the images under a directory; this
    instance lists the image files whose path starts with the directory. *)
Definition images_under (files : gmap string (list Byte.byte)) (dir : string)
    : list string :=
  List.filter (fun p => PyStr.startswith p (dir +:+ "/") && is_image_file p)
              (map fst (map_to_list files)).

(** ** A codec for the examples *)

Definition byte_of (z : Z) : Byte.byte :=
  default Byte.x00 (Byte.of_N (Z.to_N (z mod 256))).

Definition Z_of_byte (b : Byte.byte) : Z := Z.of_N (Byte.to_N b).

(** The file holds the two dimensions and then the pixel values. *)
Definition raw_encode (img : ndarray) : list Byte.byte :=
  byte_of (height img) :: byte_of (width img) :: (byte_of <$> pixels img).

Definition raw_decode (buf : list Byte.byte) : option ndarray :=
  match buf with
  | h :: w :: px => Some (NdArray (Z_of_byte h) (Z_of_byte w) (Z_of_byte <$> px))
  | _ => None
  end.

(** A destination of the size of the source is a copy of the source;
    otherwise each destination pixel takes the source value at the scaled
    position. *)
Definition sample_pixels (src : ndarray) (h w : Z) : list Z :=
  if (h =? height src) && (w =? width src) then pixels src
  else
    (fun i : nat =>
       let r := Z.of_nat i / w * height src / h in
       let c := Z.of_nat i mod w * width src / w in
       default 0 (pixels src !! Z.to_nat (r * width src + c)))
    <$> seq 0 (Z.to_nat (h * w)).

(** This codec writes the five recognised formats and raises for any other
    file name, as [cv2.imwrite] does when it finds no writer; it has no
    WebP encoder, so that [cv2.imencode('.webp', ...)] raises. *)
Definition cv_without_webp : opencv := {|
  imdecode := raw_decode;
  imencode ext img params :=
    if String.eqb ext ".webp"
    then inl "could not find encoder for the specified extension"
    else inr (raw_encode img);
  imwrite_encode filename img :=
    if is_image_file filename then Written (raw_encode img)
    else WriteError "could not find a writer for the specified extension";
  inter_area := sample_pixels
|}.

(** A codec whose [cv2.imwrite] cannot write its destination: it returns
    [False] and leaves no file. *)
Definition cv_write_refused : opencv := {|
  imdecode := raw_decode;
  imencode ext img params := inr (raw_encode img);
  imwrite_encode filename img := NotWritten;
  inter_area := sample_pixels
|}.

(** The same codec with a WebP encoder. *)
Definition cv_with_webp : opencv := {|
  imdecode := raw_decode;
  imencode ext img params := inr (raw_encode img);
  imwrite_encode filename img :=
    if is_image_file filename then Written (raw_encode img)
    else WriteError "could not find a writer for the specified extension";
  inter_area := sample_pixels
|}.

(** ** Example data *)

(** A crop tree with two character folders, a noise folder and a plain
    file; both crops were cut from the same frame, whose record still
    carries a label of an earlier run. *)
Definition ex_listing : list dir_entry :=
  [ DirEntry "0_alice" (Some ["a.png"; ".a_meta.json"]);
    DirEntry "1_bob" (Some ["b.PNG"; "b.txt"]);
    DirEntry "2_noise_misc" (Some ["n.png"]);
    DirEntry "notes.txt" None ].

Definition ex_listing_rev : list dir_entry :=
  [ DirEntry "1_bob" (Some ["b.PNG"; "b.txt"]);
    DirEntry "0_alice" (Some ["a.png"; ".a_meta.json"]);
    DirEntry "2_noise_misc" (Some ["n.png"]);
    DirEntry "notes.txt" None ].

Definition ex_store : gmap string (gmap string json) :=
  {[ "crops/0_alice/.a_meta.json" :=
       {[ "path" := JStr "frames/f.png"; "filename" := JStr "a.png" ]};
     "crops/1_bob/.b_meta.json" :=
       {[ "path" := JStr "frames/f.png"; "filename" := JStr "b.PNG" ]};
     "frames/.f_meta.json" :=
       {[ "filename" := JStr "f.png"; "characters" := JArr [JStr "carol"] ]} ]}.

Definition ex_sync (listing : list dir_entry)
    (files : gmap string (gmap string json)) :=
  save_characters_to_meta meta_names_beside default_record "crops" listing files.

(** A source tree for the export: two crops of the frame [f], the second
    one covering most of it, and two frames without characters, one of
    them without a metadata file. *)
Definition ex_pixels (n : nat) : list Z := Z.of_nat <$> seq 1 n.

Definition ex_world : world := {|
  meta :=
    {[ "crops/0_alice/.a_meta.json" :=
         {[ "path" := JStr "frames/f.png"; "filename" := JStr "a.png";
            "characters" := JArr [JStr "alice"] ]};
       "crops/1_bob/.b_meta.json" :=
         {[ "path" := JStr "frames/f.png"; "filename" := JStr "b.jpg";
            "characters" := JArr [JStr "bob"] ]};
       "frames/.f_meta.json" :=
         {[ "filename" := JStr "f.png";
            "characters" := JArr [JStr "alice"; JStr "bob"] ]};
       "frames/.g_meta.json" :=
         {[ "filename" := JStr "g.png"; "characters" := JArr [] ]} ]};
  image_files :=
    {[ "crops/0_alice/a.png" := raw_encode (NdArray 2 3 (ex_pixels 6));
       "crops/1_bob/b.jpg" := raw_encode (NdArray 4 5 (ex_pixels 20));
       "frames/f.png" := raw_encode (NdArray 6 6 (ex_pixels 36));
       "frames/g.png" := raw_encode (NdArray 6 6 (ex_pixels 36));
       "frames/h.png" := raw_encode (NdArray 6 6 (ex_pixels 36)) ]};
  made_dirs := [];
  stdout := [];
  random_draws := [7; 3; 1]%nat
|}.

Definition ex_export (cv : opencv) (max_size : Z) (ext : string) (n : Z)
    : M world unit :=
  resize_character_images cv meta_names_beside default_record images_under
    "crops" "frames" "dst" max_size ext n.

(** The example store without the record of the crop [b], and the example
    world without the record of the crop [a], and with a record of [a]
    that has lost its ['path']. *)
Definition ex_store_missing : gmap string (gmap string json) :=
  delete "crops/1_bob/.b_meta.json" ex_store.

Definition ex_world_missing : world :=
  World (delete "crops/0_alice/.a_meta.json" (meta ex_world))
        (image_files ex_world) [] [] [].

Definition ex_world_no_path : world :=
  with_meta ex_world "crops/0_alice/.a_meta.json"
    {[ "filename" := JStr "a.png"; "characters" := JArr [JStr "alice"] ]}.

Definition ex_frame : ndarray := NdArray 6 6 (ex_pixels 36).

Definition ex_save (cv : opencv) (img : ndarray) (img_path save_dir ext : string)
    : M world unit :=
  save_image_and_meta cv meta_names_beside img img_path save_dir ext.

(** ** Views used by the further properties *)

(** [kept S T]: every metadata file of [S] is still there in [T], and
    differs at most in its ['characters'] field. *)
Definition kept (S T : gmap string (gmap string json)) : Prop :=
  forall p d, S !! p = Some d ->
    exists d', T !! p = Some d'
               /\ forall key, key ≠ "characters" -> d' !! key = d !! key.

(** The metadata files of the crops of [l]. *)
Definition crop_meta_paths (get_corr_meta_names : string -> string * string)
    (l : list (string * string)) : list string :=
  (fun c => (get_corr_meta_names c.2).1) <$> l.

(** The crop [c] has a metadata file in [files], and the original frame
    it links to, if any, keeps its metadata in a file that is not the file
    of a crop of [l]. *)
Definition crop_file_own (get_corr_meta_names : string -> string * string)
    (files : gmap string (gmap string json)) (l : list (string * string))
    (c : string * string) : Prop :=
  is_Some (files !! (get_corr_meta_names c.2).1)
  /\ match path_at files (get_corr_meta_names c.2).1 with
     | Some (JStr original_path) =>
         (get_corr_meta_names original_path).1
           ∉ crop_meta_paths get_corr_meta_names l
     | _ => True
     end.

(** The crops of [done] carry the one name of their folder. *)
Definition crops_labelled (get_corr_meta_names : string -> string * string)
    (done : list (string * string))
    (files : gmap string (gmap string json)) : Prop :=
  forall c, c ∈ done ->
    chars_at files (get_corr_meta_names c.2).1 = Some (JArr [JStr c.1]).



(** * Facts *)

(** ** Strings and paths *)

Lemma append_cons a s t : String a s +:+ t = String a (s +:+ t).
Proof. reflexivity. Qed.

Lemma append_assoc s t u : (s +:+ t) +:+ u = s +:+ (t +:+ u).
Proof.
  induction s as [|a s IH]; [reflexivity|].
  by rewrite !append_cons, IH.
Qed.

Lemma length_append s t :
  String.length (s +:+ t) = (String.length s + String.length t)%nat.
Proof.
  induction s as [|a s IH]; [reflexivity|].
  rewrite append_cons. simpl. by rewrite IH.
Qed.

Lemma drop_append s t : PyStr.drop (String.length s) (s +:+ t) = t.
Proof. induction s as [|a s IH]; [by destruct t|]. by rewrite append_cons. Qed.

Lemma endswith_append s suf : PyStr.endswith (s +:+ suf) suf = true.
Proof.
  unfold PyStr.endswith. rewrite length_append.
  apply andb_true_intro. split.
  - apply Nat.leb_le. lia.
  - replace (String.length s + String.length suf - String.length suf)%nat
      with (String.length s) by lia.
    rewrite drop_append. apply String.eqb_refl.
Qed.

Lemma join_suffix a b : exists pre, OsPath.join a b = pre +:+ b.
Proof.
  unfold OsPath.join. destruct (PyStr.startswith b "/").
  - by exists "".
  - destruct (_ || _); [by exists a|].
    exists (a +:+ "/"). by rewrite append_assoc.
Qed.

(** Lines 113-118: the destination path of the image ends in the
    requested extension. *)
Lemma adjusted_path_endswith img_path save_dir ext :
  PyStr.endswith (adjusted_path img_path save_dir ext) ext = true.
Proof.
  unfold adjusted_path.
  destruct (join_suffix save_dir
              ((OsPath.splitext (OsPath.basename img_path)).1 +:+ ext))
    as [pre ->].
  rewrite <- append_assoc. apply endswith_append.
Qed.

Section SynchronizerFacts.

Variable get_corr_meta_names : string -> string * string.
Variable default_metadata : string -> gmap string json.

Abbreviation meta_path p := (get_corr_meta_names p).1.
Abbreviation crop_step := (sync_crop get_corr_meta_names default_metadata).
Abbreviation orig_record := (Sync.orig_record get_corr_meta_names default_metadata).
Abbreviation chars_read := (Sync.chars_read get_corr_meta_names default_metadata).
Abbreviation sync_crops := (Sync.sync_crops get_corr_meta_names default_metadata).
Abbreviation rerun_inv := (Sync.rerun_inv get_corr_meta_names).
Abbreviation links_to := (Sync.links_to get_corr_meta_names).
Abbreviation derived_names := (Sync.derived_names get_corr_meta_names).
Abbreviation frame_inv := (Sync.frame_inv get_corr_meta_names).
Abbreviation kept_apart := (Sync.kept_apart get_corr_meta_names).
Abbreviation save_characters_to_meta :=
  (Sync.save_characters_to_meta get_corr_meta_names default_metadata).

Lemma append_character_appended char_name (d : gmap string json) st :
  append_character char_name d st =
  match appended char_name (d !! "characters") with
  | inl e => Raise e st
  | inr v => Ok (<["characters" := v]> d) st
  end.
Proof.
  unfold append_character, appended.
  destruct (d !! "characters") as [[| | | s |l|kvs]|] eqn:Hc; try reflexivity.
  - destruct (PyStr.contains s char_name); [|reflexivity].
    unfold mret, M_ret. by rewrite insert_id.
  - destruct (existsb _ l); unfold mret, M_ret; [|reflexivity].
    by rewrite insert_id.
  - destruct (existsb _ kvs); [|reflexivity].
    unfold mret, M_ret. by rewrite insert_id.
Qed.

(** [sync_crop] in one piece. *)
Lemma sync_crop_unfold char_name img_path st :
  crop_step char_name img_path st =
  match meta_files st !! meta_path img_path with
  | None => Raise missing_crop_meta st
  | Some d =>
      match d !! "path" with
      | None =>
          Ok tt (SyncState (<[meta_path img_path := crop_record char_name d]>
                             (meta_files st)) (encountered_paths st))
      | Some (JStr original_path) =>
          match appended char_name (chars_read st original_path) with
          | inl e =>
              Raise e (SyncState (meta_files st)
                         ({[original_path]} ∪ encountered_paths st))
          | inr v =>
              Ok tt (SyncState
                       (<[meta_path img_path := crop_record char_name d]>
                          (<[meta_path original_path :=
                               <["characters" := v]> (orig_record st original_path)]>
                             (meta_files st)))
                       ({[original_path]} ∪ encountered_paths st))
          end
      | Some _ => Raise TypeError st
      end
  end.
Proof.
  destruct st as [files enc].
  unfold sync_crop, mbind, M_bind, gets; simpl.
  destruct (files !! meta_path img_path) as [d|] eqn:Hd; [|reflexivity].
  rewrite lookup_insert_ne by done.
  destruct (d !! "path") as [[| | | original_path | |]|] eqn:Hp;
    try reflexivity.
  unfold update_original, mbind, M_bind, gets, reset_on_first_encounter,
    Sync.chars_read, Sync.orig_record; simpl.
  destruct (decide (original_path ∈ enc)) as [Hin|Hin].
  - rewrite append_character_appended.
    rewrite (subseteq_union_1_L {[original_path]} enc)
      by (by apply singleton_subseteq_l).
    destruct (appended _ _); reflexivity.
  - rewrite append_character_appended, lookup_insert_eq.
    simpl. by rewrite insert_insert_eq.
Qed.

(** *** The crops of a listing, in processing order *)

Lemma for_each_app {St A} (body : A -> M St unit) (l1 l2 : list A) st :
  for_each body (l1 ++ l2) st = (for_each body l1 ;; for_each body l2) st.
Proof.
  revert st. induction l1 as [|x l1 IH]; intros st; simpl.
  - reflexivity.
  - unfold mbind, M_bind in *. destruct (body x st); [apply IH | reflexivity].
Qed.

Lemma sync_file_image char_name folder_path img_file st :
  sync_file get_corr_meta_names default_metadata char_name folder_path
    img_file st =
  if is_image_file img_file
  then crop_step char_name (OsPath.join folder_path img_file) st
  else Ok tt st.
Proof.
  unfold sync_file, is_image_file.
  destruct (OsPath.splitext img_file) as [img_name img_ext]. simpl.
  by destruct (bool_decide _).
Qed.

Lemma sync_folder_crops crop_dir e st :
  sync_folder get_corr_meta_names default_metadata crop_dir e st =
  sync_crops (folder_crops crop_dir e) st.
Proof.
  unfold sync_folder, folder_crops.
  destruct (PyStr.startswith _ _); [reflexivity|].
  destruct (entry_files e) as [files|]; [|reflexivity].
  unfold Sync.sync_crops.
  revert st. induction files as [|f files IH]; intros st; [reflexivity|].
  simpl. unfold mbind, M_bind. rewrite sync_file_image.
  destruct (is_image_file f); simpl; [|apply IH].
  unfold mbind, M_bind.
  destruct (crop_step _ _ st); [apply IH | reflexivity].
Qed.

Lemma sync_loop_crops crop_dir listing st :
  sync_loop get_corr_meta_names default_metadata crop_dir listing st =
  sync_crops (crops crop_dir listing) st.
Proof.
  unfold sync_loop, crops, Sync.sync_crops.
  revert st. induction listing as [|e listing IH]; intros st; [reflexivity|].
  simpl. rewrite for_each_app. unfold mbind, M_bind.
  rewrite sync_folder_crops. unfold Sync.sync_crops.
  destruct (for_each _ (folder_crops crop_dir e) st); [apply IH | reflexivity].
Qed.

(** *** What a run never changes *)

Lemma future_refl S : future S S.
Proof. by intros p Hp. Qed.

Lemma future_trans S T U : future S T -> future T U -> future S U.
Proof.
  intros HST HTU p Hp. destruct (HST p Hp) as [Hq Heq].
  destruct (HTU p Hq) as [Hr Heq']. split; [done|congruence].
Qed.

Lemma field_at_insert key p q (d : gmap string json) S :
  field_at key (<[p := d]> S) q =
  if decide (p = q) then d !! key else field_at key S q.
Proof.
  unfold field_at. rewrite lookup_insert. by case_decide.
Qed.

Lemma field_at_Some key S p (d : gmap string json) :
  S !! p = Some d -> field_at key S p = d !! key.
Proof. unfold field_at. by intros ->. Qed.

Lemma crop_record_path char_name (d : gmap string json) :
  crop_record char_name d !! "path" = d !! "path".
Proof. unfold crop_record. by rewrite lookup_insert_ne. Qed.

Lemma crop_record_chars char_name (d : gmap string json) :
  crop_record char_name d !! "characters" = Some (JArr [JStr char_name]).
Proof. unfold crop_record. by rewrite lookup_insert_eq. Qed.

Lemma orig_record_Some st original_path (d : gmap string json) :
  meta_files st !! meta_path original_path = Some d ->
  orig_record st original_path = d.
Proof. unfold Sync.orig_record. by intros ->. Qed.

Lemma sync_crop_future char_name img_path st st1 :
  crop_step char_name img_path st = Ok tt st1 ->
  future (meta_files st) (meta_files st1).
Proof.
  rewrite sync_crop_unfold. destruct st as [S E]; simpl.
  destruct (S !! meta_path img_path) as [d|] eqn:Hd; [|done].
  destruct (d !! "path") as [[| | |P| |]|] eqn:Hp; try done.
  - destruct (appended _ _) as [e|v]; [done|].
    intros [= <-]; simpl. intros p [x Hx].
    rewrite field_at_insert, lookup_insert. case_decide as Hmp.
    { subst p. rewrite crop_record_path, (field_at_Some _ _ _ _ Hd). eauto. }
    rewrite field_at_insert, lookup_insert. case_decide as Hmo.
    { subst p. rewrite (orig_record_Some (SyncState S E) _ _ Hx).
      rewrite lookup_insert_ne by done.
      rewrite (field_at_Some _ _ _ _ Hx). eauto. }
    eauto.
  - intros [= <-]; simpl. intros p [x Hx].
    rewrite field_at_insert, lookup_insert. case_decide as Hmp; [|eauto].
    subst p. rewrite crop_record_path, (field_at_Some _ _ _ _ Hd). eauto.
Qed.

Lemma sync_crops_future l st st1 :
  sync_crops l st = Ok tt st1 -> future (meta_files st) (meta_files st1).
Proof.
  unfold Sync.sync_crops. revert st.
  induction l as [|[c img] l IH]; intros st; simpl.
  - intros [= <-]. apply future_refl.
  - unfold mbind, M_bind.
    destruct (crop_step c img st) as [[] st'|] eqn:Hstep; [|done].
    intros Hrest. eapply future_trans; [by eapply sync_crop_future|by apply IH].
Qed.

(** *** Running the synchronizer again *)

Lemma rerun_inv_start S Sn : rerun_inv S Sn ∅ Sn.
Proof.
  split; [by intros p Hp | intros P HP; set_solver | by right | done ].
Qed.

Lemma rerun_step char_name img_path S E S1 E1 S' Sn :
  crop_step char_name img_path (SyncState S E) = Ok tt (SyncState S1 E1) ->
  future S1 Sn ->
  rerun_inv S S' E Sn ->
  exists S1',
    crop_step char_name img_path (SyncState S' E) = Ok tt (SyncState S1' E1)
    /\ rerun_inv S1 S1' E1 Sn.
Proof.
  intros Hstep Hfut [I1 I2 I3 I4].
  rewrite sync_crop_unfold in Hstep. rewrite sync_crop_unfold. simpl in *.
  destruct (S !! meta_path img_path) as [d|] eqn:Hd; [|done].
  destruct (d !! "path") as [[| | |P| |]|] eqn:Hp; try done.
  - destruct (appended _ _) as [e|v] eqn:Happ; [done|].
    injection Hstep as <- <-.
    (* the crop's file in the second run *)
    destruct (Hfut (meta_path img_path)) as [Hn Hnp].
    { rewrite lookup_insert_eq. eauto. }
    rewrite field_at_insert, decide_True, crop_record_path, Hp in Hnp by done.
    destruct (I1 _ Hn) as [[d' Hd'] Hp']. rewrite Hnp in Hp'.
    rewrite (field_at_Some _ _ _ _ Hd') in Hp'. rewrite Hd', Hp'.
    (* the original frame's file in the second run *)
    destruct (Hfut (meta_path P)) as [Hno _].
    { rewrite lookup_insert. case_decide; [eauto|].
      rewrite lookup_insert_eq. eauto. }
    destruct (I1 _ Hno) as [[o' Ho'] Hop'].
    assert (chars_read (SyncState S' E) P = chars_read (SyncState S E) P)
      as Hread.
    { unfold Sync.chars_read; simpl. destruct (decide (P ∈ E)) as [HP|HP]; [|done].
      destruct (I2 P HP) as [[o Ho] Hc].
      rewrite (orig_record_Some (SyncState S' E) _ _ Ho').
      rewrite (orig_record_Some (SyncState S E) _ _ Ho).
      by rewrite (field_at_Some _ _ _ _ Ho'), (field_at_Some _ _ _ _ Ho) in Hc. }
    rewrite Hread, Happ. eexists; split; [reflexivity|].
    rewrite (orig_record_Some (SyncState S' E) _ _ Ho').
    split.
    + intros p Hpn. destruct (I1 p Hpn) as [[x Hx] Hxp].
      rewrite field_at_insert, lookup_insert. case_decide as Hmp.
      { subst p. rewrite crop_record_path, Hp'.
        rewrite <- Hxp, (field_at_Some _ _ _ _ Hd'). eauto. }
      rewrite field_at_insert, lookup_insert. case_decide as Hmo.
      { subst p. rewrite lookup_insert_ne by done.
        rewrite <- Hxp, (field_at_Some _ _ _ _ Ho'). eauto. }
      eauto.
    + intros P' HP'. rewrite !lookup_insert, !field_at_insert.
      case_decide as Hmp.
      { rewrite !crop_record_chars. eauto. }
      case_decide as Hmo.
      { rewrite !lookup_insert_eq. eauto. }
      apply I2. apply elem_of_union in HP' as [HP'|HP']; [|done].
      apply elem_of_singleton in HP'. by subst P'.
    + intros p. rewrite !field_at_insert.
      case_decide as Hmp. { left. by rewrite !crop_record_chars. }
      case_decide as Hmo. { left. by rewrite !lookup_insert_eq. }
      apply I3.
    + intros p. rewrite !lookup_insert.
      case_decide as Hmp. { by subst p. }
      case_decide as Hmo. { by subst p. }
      apply I4.
  - injection Hstep as <- <-.
    destruct (Hfut (meta_path img_path)) as [Hn Hnp].
    { rewrite lookup_insert_eq. eauto. }
    rewrite field_at_insert, decide_True, crop_record_path, Hp in Hnp by done.
    destruct (I1 _ Hn) as [[d' Hd'] Hp']. rewrite Hnp in Hp'.
    rewrite (field_at_Some _ _ _ _ Hd') in Hp'. rewrite Hd', Hp'.
    eexists; split; [reflexivity|]. split.
    + intros p Hpn. destruct (I1 p Hpn) as [[x Hx] Hxp].
      rewrite field_at_insert, lookup_insert. case_decide as Hmp; [|eauto].
      subst p. rewrite crop_record_path, Hp'.
      rewrite <- Hxp, (field_at_Some _ _ _ _ Hd'). eauto.
    + intros P' HP'. rewrite !lookup_insert, !field_at_insert.
      case_decide as Hmp; [|by apply I2].
      rewrite !crop_record_chars. eauto.
    + intros p. rewrite !field_at_insert.
      case_decide as Hmp; [|apply I3]. left. by rewrite !crop_record_chars.
    + intros p. rewrite !lookup_insert.
      case_decide as Hmp; [by subst p|apply I4].
Qed.

Lemma rerun_crops l S E Sn En S' :
  sync_crops l (SyncState S E) = Ok tt (SyncState Sn En) ->
  rerun_inv S S' E Sn ->
  exists Sn',
    sync_crops l (SyncState S' E) = Ok tt (SyncState Sn' En)
    /\ rerun_inv Sn Sn' En Sn.
Proof.
  unfold Sync.sync_crops. revert S E S'.
  induction l as [|[c img] l IH]; intros S E S'; simpl.
  - intros [= <- <-] Hinv. eauto.
  - unfold mbind, M_bind.
    destruct (crop_step c img (SyncState S E)) as [[] [S1 E1]|] eqn:Hstep;
      [|done].
    intros Hrest Hinv.
    destruct (rerun_step _ _ _ _ _ _ _ _ Hstep
                (sync_crops_future _ _ _ Hrest) Hinv) as (S1' & -> & Hinv1).
    eapply IH; eassumption.
Qed.

(** *** The characters of an original frame *)

Lemma dedup_in_order_snoc l c :
  dedup_in_order (l ++ [c]) =
  if bool_decide (c ∈ l) then dedup_in_order l else dedup_in_order l ++ [c].
Proof.
  induction l as [|x l IH]; [reflexivity|].
  simpl. rewrite IH. destruct (decide (c = x)) as [->|Hne].
  - rewrite (bool_decide_eq_true_2 (x ∈ x :: l)) by apply list_elem_of_here.
    case_bool_decide; [done|].
    rewrite filter_app, filter_cons_False, filter_nil, app_nil_r by naive_solver.
    done.
  - case_bool_decide as Hin.
    + by rewrite bool_decide_eq_true_2 by by apply list_elem_of_further.
    + rewrite bool_decide_eq_false_2.
      * by rewrite filter_app, filter_cons_True by done.
      * intros [->|?]%elem_of_cons; done.
Qed.

Lemma elem_of_dedup_in_order x l : x ∈ dedup_in_order l <-> x ∈ l.
Proof.
  induction l as [|y l IH]; [done|]. simpl.
  rewrite !elem_of_cons, list_elem_of_filter, IH.
  destruct (decide (x = y)); naive_solver.
Qed.

Lemma NoDup_dedup_in_order l : NoDup (dedup_in_order l).
Proof.
  induction l as [|y l IH]; simpl; [constructor|].
  constructor; [|by apply NoDup_filter].
  rewrite list_elem_of_filter. naive_solver.
Qed.

Lemma existsb_json_eq_str c (l : list string) :
  existsb (json_eq_str c) (JStr <$> l) = bool_decide (c ∈ l).
Proof.
  induction l as [|x l IH]; [reflexivity|].
  rewrite fmap_cons. cbn [existsb json_eq_str]. rewrite IH.
  destruct (String.eqb_spec c x) as [->|Hne]; simpl.
  - symmetry. apply bool_decide_eq_true_2, list_elem_of_here.
  - apply bool_decide_ext. rewrite elem_of_cons. naive_solver.
Qed.

Lemma derived_names_snoc S0 F done c :
  derived_names S0 F (done ++ [c]) =
  derived_names S0 F done ++ (if links_to S0 F c then [c.1] else []).
Proof.
  unfold Sync.derived_names. rewrite filter_app, fmap_app. f_equal.
  destruct (links_to S0 F c) eqn:Hl.
  - rewrite filter_cons_True; [reflexivity|]. simpl. by rewrite Hl.
  - rewrite filter_cons_False; [reflexivity|]. simpl. rewrite Hl. by intros [].
Qed.

Lemma sync_crop_frame S0 F done char_name img_path st st1 :
  crop_step char_name img_path st = Ok tt st1 ->
  future S0 (meta_files st) ->
  is_Some (S0 !! meta_path img_path) ->
  meta_path img_path ≠ meta_path F ->
  (forall P, path_at S0 (meta_path img_path) = Some (JStr P) ->
             meta_path P = meta_path F -> P = F) ->
  frame_inv S0 F done st ->
  frame_inv S0 F (done ++ [(char_name, img_path)]) st1.
Proof.
  intros Hstep Hfut Hex Hsep Hinj [Hin Hout].
  destruct st as [S E]; simpl in *.
  rewrite sync_crop_unfold in Hstep; simpl in Hstep.
  destruct (Hfut _ Hex) as [[d Hd] Hpath].
  rewrite (field_at_Some _ _ _ _ Hd) in Hpath. rewrite Hd in Hstep.
  unfold Sync.frame_inv.
  rewrite derived_names_snoc. unfold Sync.links_to; simpl.
  rewrite <- Hpath.
  destruct (d !! "path") as [[| | |P| |]|] eqn:Hp; try done.
  - destruct (appended _ _) as [e|v] eqn:Happ; [done|].
    injection Hstep as <-. unfold Sync.frame_inv; simpl.
    rewrite !field_at_insert, decide_False by done.
    destruct (String.eqb_spec P F) as [->|Hne].
    + rewrite decide_True by done. rewrite lookup_insert_eq.
      split; [intros _|set_solver]. f_equal.
      unfold Sync.chars_read in Happ; simpl in Happ.
      destruct (decide (F ∈ E)) as [HF|HF].
      * specialize (Hin HF).
        assert (is_Some (S !! meta_path F)) as [o Ho].
        { unfold field_at in Hin. destruct (S !! meta_path F); naive_solver. }
        rewrite (orig_record_Some (SyncState S E) _ _ Ho) in Happ.
        rewrite (field_at_Some _ _ _ _ Ho) in Hin. rewrite Hin in Happ.
        simpl in Happ. rewrite existsb_json_eq_str in Happ.
        injection Happ as <-.
        rewrite dedup_in_order_snoc.
        assert (bool_decide (char_name ∈ dedup_in_order (derived_names S0 F done))
                = bool_decide (char_name ∈ derived_names S0 F done)) as ->.
        { apply bool_decide_ext, elem_of_dedup_in_order. }
        case_bool_decide; [done|]. by rewrite fmap_app.
      * rewrite (Hout HF). simpl in Happ. by injection Happ as <-.
    + rewrite app_nil_r.
      assert (meta_path P ≠ meta_path F) as Hmo.
      { intros Heq. apply Hne, Hinj; [by rewrite <- Hpath|done]. }
      rewrite decide_False by done.
      split; intros HF.
      * apply Hin. set_solver.
      * apply Hout. set_solver.
  - injection Hstep as <-. unfold Sync.frame_inv; simpl.
    rewrite app_nil_r, field_at_insert, decide_False by done. done.
Qed.

Lemma sync_crops_frame S0 F rest : forall done st stn,
  sync_crops rest st = Ok tt stn ->
  future S0 (meta_files st) ->
  (forall c, c ∈ rest -> is_Some (S0 !! meta_path c.2)) ->
  (forall c, c ∈ rest -> meta_path c.2 ≠ meta_path F) ->
  (forall c P, c ∈ rest -> path_at S0 (meta_path c.2) = Some (JStr P) ->
               meta_path P = meta_path F -> P = F) ->
  frame_inv S0 F done st ->
  frame_inv S0 F (done ++ rest) stn.
Proof.
  unfold Sync.sync_crops.
  induction rest as [|[c img] rest IH]; intros done st stn; simpl.
  - intros [= <-] _ _ _ _ Hinv. by rewrite app_nil_r.
  - unfold mbind, M_bind.
    destruct (crop_step c img st) as [[] st1|] eqn:Hstep; [|done].
    intros Hrest Hfut Hex Hsep Hinj Hinv.
    rewrite (cons_middle (c, img) done rest), app_assoc.
    apply (IH _ st1); try done.
    + eapply future_trans; [done|by eapply sync_crop_future].
    + intros x Hx. apply Hex. by apply list_elem_of_further.
    + intros x Hx. apply Hsep. by apply list_elem_of_further.
    + intros x P Hx. apply Hinj. by apply list_elem_of_further.
    + eapply sync_crop_frame; try done.
      * apply (Hex (c, img)), list_elem_of_here.
      * apply (Hsep (c, img)), list_elem_of_here.
      * intros P. apply (Hinj (c, img) P), list_elem_of_here.
Qed.

Lemma save_characters_to_meta_crops crop_dir listing S0 S1 :
  save_characters_to_meta crop_dir listing S0 = Ok tt S1 <->
  exists E1, sync_crops (crops crop_dir listing) (SyncState S0 ∅)
             = Ok tt (SyncState S1 E1).
Proof.
  unfold Sync.save_characters_to_meta. rewrite sync_loop_crops.
  destruct (sync_crops _ _) as [[] [S E]|e [S E]]; simpl.
  - split; [intros [= <-]; eauto | intros [E1 [= <- <-]]; done].
  - split; [done | intros [E1 [=]]].
Qed.

Lemma sync_frame_characters crop_dir listing S0 S1 F :
  Forall (kept_apart S0 F) (crops crop_dir listing) ->
  Exists (fun c => links_to S0 F c = true) (crops crop_dir listing) ->
  save_characters_to_meta crop_dir listing S0 = Ok tt S1 ->
  chars_at S1 (meta_path F) =
  Some (JArr (JStr <$> dedup_in_order
                         (derived_names S0 F (crops crop_dir listing)))).
Proof.
  intros Hapart Hlink [E1 Hrun]%save_characters_to_meta_crops.
  rewrite Forall_forall in Hapart.
  destruct (sync_crops_frame S0 F _ [] _ _ Hrun) as [Hin Hout]; simpl in *.
  - apply future_refl.
  - intros c Hc. apply (Hapart c Hc).
  - intros c Hc. apply (Hapart c Hc).
  - intros c P Hc HP. destruct (Hapart c Hc) as (_ & _ & Hinj).
    by rewrite HP in Hinj.
  - split; [set_solver|done].
  - apply Hin. destruct (decide (F ∈ E1)) as [|HF]; [done|].
    apply Hout in HF. apply Exists_exists in Hlink as (c & Hc & Hl).
    assert (c.1 ∈ derived_names S0 F (crops crop_dir listing)) as Hn.
    { unfold Sync.derived_names. apply list_elem_of_fmap_2.
      apply list_elem_of_filter. split; [by rewrite Hl|done]. }
    rewrite HF in Hn. by apply elem_of_nil in Hn.
Qed.

Lemma crops_Permutation crop_dir listing listing' :
  listing' ≡ₚ listing -> crops crop_dir listing' ≡ₚ crops crop_dir listing.
Proof. intros H. unfold crops. by rewrite H. Qed.

Lemma dedup_in_order_Permutation l l' :
  l' ≡ₚ l -> dedup_in_order l' ≡ₚ dedup_in_order l.
Proof.
  intros H. apply NoDup_Permutation; try apply NoDup_dedup_in_order.
  intros x. rewrite !elem_of_dedup_in_order. by rewrite H.
Qed.

(** C1, amended: for an original frame [F] whose metadata file is kept
    apart from the files of the processed crops and of the other original
    frames, and that at least one processed crop links to, a completed run
    leaves in [F]'s record exactly the deduplicated, insertion-ordered list
    of the character names derived from the crops of the run that link to
    [F] (so nothing of an earlier run survives); processing the crop
    folders in another order gives a list with the same names, in the
    order of that run. *)
Theorem C1_frame_characters_reset_once crop_dir listing listing' S0 S1 S1' F :
  listing' ≡ₚ listing ->
  Forall (kept_apart S0 F) (crops crop_dir listing) ->
  Exists (fun c => links_to S0 F c = true) (crops crop_dir listing) ->
  save_characters_to_meta crop_dir listing S0 = Ok tt S1 ->
  save_characters_to_meta crop_dir listing' S0 = Ok tt S1' ->
  chars_at S1 (meta_path F) =
    Some (JArr (JStr <$> dedup_in_order
                           (derived_names S0 F (crops crop_dir listing))))
  /\ chars_at S1' (meta_path F) =
    Some (JArr (JStr <$> dedup_in_order
                           (derived_names S0 F (crops crop_dir listing'))))
  /\ dedup_in_order (derived_names S0 F (crops crop_dir listing'))
     ≡ₚ dedup_in_order (derived_names S0 F (crops crop_dir listing)).
Proof.
  intros Hperm Hapart Hlink Hrun Hrun'.
  pose proof (crops_Permutation crop_dir _ _ Hperm) as Hcrops.
  split; [by apply sync_frame_characters|]. split.
  - apply sync_frame_characters; [| |done].
    + by rewrite Hcrops.
    + apply Exists_exists. apply Exists_exists in Hlink as (c & Hc & Hl).
      exists c. split; [by rewrite Hcrops|done].
  - apply dedup_in_order_Permutation. unfold Sync.derived_names.
    by rewrite Hcrops.
Qed.

(** C3: when a run of the synchronizer has completed, a second run on the
    same crop tree completes too and leaves the ['characters'] field of
    every metadata file, of crops and of original frames alike, as the
    first run left it; it creates no metadata file. *)
Theorem C3_second_run_same_characters crop_dir listing S0 S1 :
  save_characters_to_meta crop_dir listing S0 = Ok tt S1 ->
  exists S2,
    save_characters_to_meta crop_dir listing S1 = Ok tt S2
    /\ dom S2 = dom S1
    /\ forall p, chars_at S2 p = chars_at S1 p.
Proof.
  intros [E1 Hrun]%save_characters_to_meta_crops.
  destruct (rerun_crops _ _ _ _ _ _ Hrun (rerun_inv_start S0 S1))
    as (S2 & Hrun2 & [I1 I2 I3 I4]).
  exists S2. split; [|split].
  - apply save_characters_to_meta_crops. eauto.
  - apply set_eq. intros p. rewrite !elem_of_dom. split; [apply I4|apply I1].
  - intros p. by destruct (I3 p).
Qed.

End SynchronizerFacts.

(** ** The export pipeline *)

Lemma for_each_raise {St A} (body : A -> M St unit) pre x post st0 st e st' :
  for_each body pre st0 = Ok tt st ->
  body x st = Raise e st' ->
  for_each body (pre ++ x :: post) st0 = Raise e st'.
Proof.
  intros Hpre Hx. rewrite for_each_app. unfold mbind, M_bind.
  rewrite Hpre. simpl. unfold mbind, M_bind. by rewrite Hx.
Qed.

Lemma for_each_next {St A} (body : A -> M St unit) x rest st st' :
  body x st = Ok tt st' ->
  for_each body (x :: rest) st = for_each body rest st'.
Proof. intros Hx. simpl. unfold mbind, M_bind. by rewrite Hx. Qed.

Section PipelineFacts.

Variable cv : opencv.
Variable get_corr_meta_names : string -> string * string.
Variable default_metadata : string -> gmap string json.
Variable get_images_recursively :
  gmap string (list Byte.byte) -> string -> list string.

Abbreviation meta_path p := (get_corr_meta_names p).1.
Abbreviation export_crop := (Pipeline.export_crop cv get_corr_meta_names).
Abbreviation save_image_and_meta :=
  (Pipeline.save_image_and_meta cv get_corr_meta_names).
Abbreviation resize_character_images :=
  (Pipeline.resize_character_images cv get_corr_meta_names default_metadata
     get_images_recursively).
Abbreviation copy_meta := (Pipeline.copy_meta get_corr_meta_names).
Abbreviation export_frame := (Pipeline.export_frame cv get_corr_meta_names).
Abbreviation scan_full_frame :=
  (Pipeline.scan_full_frame cv get_corr_meta_names default_metadata).
Abbreviation encoded_image := (Pipeline.encoded_image cv).
Abbreviation reaches_metadata := (Pipeline.reaches_metadata cv).
Abbreviation resize_image := (Pipeline.resize_image cv).

Lemma size_area img : size img = area img * 3.
Proof. reflexivity. Qed.

Lemma over_half_size (cropped original : ndarray) :
  ((1 # 2) * inject_Z (area original) < inject_Z (area cropped))%Q ->
  (inject_Z (size cropped) ?= (1 # 2) * inject_Z (size original))%Q = Gt.
Proof.
  intros Hhalf. apply Qgt_alt. rewrite !size_area.
  unfold Qlt in *. simpl in *. lia.
Qed.

(** C4: in the loop over the crops, a crop whose pixel area is greater
    than half the pixel area of the original frame its record links to is
    passed over: the call returns and leaves the state as it was, so
    neither an image file nor a metadata record is written for it. *)
Theorem C4_oversized_crop_not_exported dst_dir max_size ext img_path w
    meta_data original_path cropped original :
  meta w !! meta_path img_path = Some meta_data ->
  meta_data !! "path" = Some (JStr original_path) ->
  image_files w !! img_path ≫= imdecode cv = Some cropped ->
  image_files w !! original_path ≫= imdecode cv = Some original ->
  ((1 # 2) * inject_Z (area original) < inject_Z (area cropped))%Q ->
  export_crop dst_dir max_size ext img_path w = Ok tt w.
Proof.
  intros Hmeta Hpath Hcrop Horig Hhalf.
  unfold Pipeline.export_crop, mbind, M_bind, gets, imread; simpl.
  rewrite Hmeta. destruct (has_characters meta_data); [|reflexivity].
  rewrite Hpath, Horig, Hcrop. simpl.
  by rewrite over_half_size.
Qed.

(** *** [save_image_and_meta] *)

Lemma copy_meta_missing img_path save_dir ext w :
  meta w !! meta_path img_path = None ->
  copy_meta img_path save_dir ext w = Raise missing_meta_for_export w.
Proof.
  intros Hmeta. unfold Pipeline.copy_meta.
  destruct (get_corr_meta_names img_path) as [mp mf]; simpl in *.
  unfold mbind, M_bind, gets. by rewrite Hmeta.
Qed.

(** C9, amended: [save_image_and_meta] runs its image step before it
    looks for the metadata record.  When the record is missing and the
    image step has written its file, the call raises the error of line 145
    in a state where the image file is already at the destination path, a
    path that ends in the requested extension.  (When [cv2.imwrite]
    returns [False], which line 132 ignores, the same error is raised and
    no image file has been created.) *)
Theorem C9_image_written_before_metadata_check img img_path save_dir ext w buf :
  meta w !! meta_path img_path = None ->
  encoded_image img (adjusted_path img_path save_dir ext) ext = Some buf ->
  save_image_and_meta img img_path save_dir ext w =
    Raise missing_meta_for_export
          (with_image w (adjusted_path img_path save_dir ext) buf)
  /\ image_files (with_image w (adjusted_path img_path save_dir ext) buf)
       !! adjusted_path img_path save_dir ext = Some buf
  /\ PyStr.endswith (adjusted_path img_path save_dir ext) ext = true.
Proof.
  intros Hmeta Henc. split; [|split].
  - unfold Pipeline.save_image_and_meta, Pipeline.encoded_image in *.
    destruct (String.eqb ext ".webp").
    + destruct (imencode cv ext img _) as [e|b]; [done|].
      injection Henc as ->. unfold mbind, M_bind, write_image_file, modify.
      by apply copy_meta_missing.
    + destruct (imwrite_encode cv _ img) as [b| |msg]; try done.
      injection Henc as ->. unfold mbind, M_bind, write_image_file, modify.
      by apply copy_meta_missing.
  - simpl. apply lookup_insert_eq.
  - apply adjusted_path_endswith.
Qed.

(** *** Failures in the loop over the crops *)

Lemma resize_character_images_crops_raise crop_dir full_dir dst_dir max_size
    ext n w0 e w :
  for_each (export_crop dst_dir max_size ext)
           (get_images_recursively (image_files w0) crop_dir)
           (prepared w0 dst_dir) = Raise e w ->
  resize_character_images crop_dir full_dir dst_dir max_size ext n w0
  = Raise e w.
Proof.
  intros Hloop.
  unfold Pipeline.resize_character_images, export_crops, mbind, M_bind,
    makedirs, modify, gets; simpl.
  unfold prepared in Hloop. by rewrite Hloop.
Qed.

(** C10: in the loop over the crops, ['path'] is read without a test.  A
    crop record with a non-empty ['characters'] list and no ['path'] field
    makes the body raise [KeyError], and the run ends with that error in
    the state reached when the crop was met. *)
Theorem C10_crop_without_path_raises_keyerror crop_dir full_dir dst_dir
    max_size ext n pre img_path post w0 w meta_data c cs :
  get_images_recursively (image_files w0) crop_dir = pre ++ img_path :: post ->
  for_each (export_crop dst_dir max_size ext) pre (prepared w0 dst_dir)
    = Ok tt w ->
  meta w !! meta_path img_path = Some meta_data ->
  meta_data !! "characters" = Some (JArr (c :: cs)) ->
  meta_data !! "path" = None ->
  export_crop dst_dir max_size ext img_path w = Raise (KeyError "path") w
  /\ resize_character_images crop_dir full_dir dst_dir max_size ext n w0
     = Raise (KeyError "path") w.
Proof.
  intros Hlist Hpre Hmeta Hchars Hpath.
  assert (export_crop dst_dir max_size ext img_path w
          = Raise (KeyError "path") w) as Hstep.
  { unfold Pipeline.export_crop, mbind, M_bind, gets, has_characters; simpl.
    by rewrite Hmeta, Hchars, Hpath. }
  split; [done|].
  apply resize_character_images_crops_raise. rewrite Hlist.
  by eapply for_each_raise.
Qed.

Lemma save_image_and_meta_missing img img_path save_dir ext w :
  meta w !! meta_path img_path = None ->
  reaches_metadata img (adjusted_path img_path save_dir ext) ext = true ->
  exists w',
    save_image_and_meta img img_path save_dir ext w
      = Raise missing_meta_for_export w'
    /\ meta w' = meta w /\ stdout w' = stdout w.
Proof.
  intros Hmeta Hreach.
  unfold Pipeline.save_image_and_meta, Pipeline.reaches_metadata in *.
  destruct (String.eqb ext ".webp").
  - destruct (imencode cv ext img _) as [e|b]; [done|].
    eexists. unfold mbind, M_bind, write_image_file, modify.
    rewrite copy_meta_missing by done. done.
  - destruct (imwrite_encode cv _ img) as [b| |msg]; [| |done].
    + eexists. unfold mbind, M_bind, write_image_file, modify.
      rewrite copy_meta_missing by done. done.
    + eexists. unfold mbind, M_bind, mret, M_ret.
      rewrite copy_meta_missing by done. done.
Qed.

(** C7, amended: a missing metadata record raises, and ends the run where
    it stands, for a crop met by the synchronizer, for a crop met by the
    first loop of the export, and in [save_image_and_meta] once its image
    step has handed over to the metadata step (a ['.webp'] encoding
    failure returns before the record is looked for).  The two other
    places where a record can be missing build a default record and go
    on: the original frame of a crop in the synchronizer, and a full frame
    in the second loop of the export. *)
Theorem C7_missing_metadata_is_fatal :
  (forall crop_dir listing pre c post S0 st,
     crops crop_dir listing = pre ++ c :: post ->
     Sync.sync_crops get_corr_meta_names default_metadata pre
       (SyncState S0 ∅) = Ok tt st ->
     meta_files st !! meta_path c.2 = None ->
     save_characters_to_meta get_corr_meta_names default_metadata
       crop_dir listing S0 = Raise missing_crop_meta (meta_files st))
  /\ (forall crop_dir full_dir dst_dir max_size ext n pre img_path post w0 w,
       get_images_recursively (image_files w0) crop_dir
         = pre ++ img_path :: post ->
       for_each (export_crop dst_dir max_size ext) pre (prepared w0 dst_dir)
         = Ok tt w ->
       meta w !! meta_path img_path = None ->
       resize_character_images crop_dir full_dir dst_dir max_size ext n w0
         = Raise missing_crop_meta w)
  /\ (forall img img_path save_dir ext w,
       meta w !! meta_path img_path = None ->
       reaches_metadata img (adjusted_path img_path save_dir ext) ext = true ->
       exists w',
         save_image_and_meta img img_path save_dir ext w
           = Raise missing_meta_for_export w'
         /\ meta w' = meta w /\ stdout w' = stdout w)
  /\ (forall char_name img_path st d original_path,
       meta_files st !! meta_path img_path = Some d ->
       d !! "path" = Some (JStr original_path) ->
       meta_files st !! meta_path original_path = None ->
       original_path ∉ encountered_paths st ->
       sync_crop get_corr_meta_names default_metadata char_name img_path st
       = Ok tt (SyncState
                  (<[meta_path img_path := crop_record char_name d]>
                     (<[meta_path original_path :=
                          <["characters" := JArr [JStr char_name]]>
                            (default_metadata original_path)]>
                        (meta_files st)))
                  ({[original_path]} ∪ encountered_paths st)))
  /\ (forall max_size frames img_path w,
       meta w !! meta_path img_path = None ->
       scan_full_frame max_size frames img_path w
       = Ok (frames ++ [img_path])
            (with_meta w (meta_path img_path) (default_metadata img_path))).
Proof.
  repeat split.
  - intros crop_dir listing pre c post S0 st Hcrops Hpre Hmeta.
    unfold Sync.save_characters_to_meta. rewrite sync_loop_crops, Hcrops.
    unfold Sync.sync_crops in *.
    rewrite (for_each_raise _ pre c post _ st missing_crop_meta st); try done.
    rewrite sync_crop_unfold. by rewrite Hmeta.
  - intros crop_dir full_dir dst_dir max_size ext n pre img_path post w0 w
      Hlist Hpre Hmeta.
    apply resize_character_images_crops_raise. rewrite Hlist.
    eapply for_each_raise; [done|].
    unfold Pipeline.export_crop, mbind, M_bind, gets; simpl.
    by rewrite Hmeta.
  - intros img img_path save_dir ext w. apply save_image_and_meta_missing.
  - intros char_name img_path st d original_path Hd Hp Ho Hfresh.
    rewrite sync_crop_unfold, Hd, Hp. unfold Sync.chars_read.
    rewrite decide_False by done. simpl.
    unfold Sync.orig_record. by rewrite Ho.
  - intros max_size frames img_path w Hmeta.
    unfold Pipeline.scan_full_frame, mbind, M_bind, gets; simpl.
    by rewrite Hmeta.
Qed.

(** C8, amended: when the requested extension is ['.webp'] and
    [cv2.imencode] raises, [save_image_and_meta] prints a report and
    returns; neither the image file nor the metadata record is written,
    and the loop over the selected frames goes on with the next frame. *)
Theorem C8_webp_encoding_failure_is_skipped :
  (forall img img_path save_dir w e,
     imencode cv ".webp" img [IMWRITE_WEBP_QUALITY; 95] = inl e ->
     save_image_and_meta img img_path save_dir ".webp" w
     = Ok tt (with_line w (encoding_report
                             (adjusted_path img_path save_dir ".webp") e)))
  /\ (forall dst_dir max_size img_path rest w full resized e,
       image_files w !! img_path ≫= imdecode cv = Some full ->
       resize_image full max_size w = Ok resized w ->
       imencode cv ".webp" resized [IMWRITE_WEBP_QUALITY; 95] = inl e ->
       for_each (export_frame dst_dir max_size ".webp") (img_path :: rest) w
       = for_each (export_frame dst_dir max_size ".webp") rest
           (with_line w (encoding_report
                           (adjusted_path img_path (OsPath.join dst_dir "full")
                              ".webp") e))).
Proof.
  assert (forall img img_path save_dir w e,
     imencode cv ".webp" img [IMWRITE_WEBP_QUALITY; 95] = inl e ->
     save_image_and_meta img img_path save_dir ".webp" w
     = Ok tt (with_line w (encoding_report
                             (adjusted_path img_path save_dir ".webp") e)))
    as Hsave.
  { intros img img_path save_dir w e Henc.
    unfold Pipeline.save_image_and_meta. simpl. by rewrite Henc. }
  split; [done|].
  intros dst_dir max_size img_path rest w full resized e Hread Hresize Henc.
  apply for_each_next.
  unfold Pipeline.export_frame, mbind, M_bind, imread, gets; simpl.
  rewrite Hread. simpl. rewrite Hresize. by apply Hsave.
Qed.

(** *** [resize_image] *)

Lemma cvRound_floor x : Qfloor x <= cvRound x <= Qfloor x + 1.
Proof.
  unfold cvRound. destruct (_ ?= _)%Q; [destruct (Z.even _)| |]; lia.
Qed.

Lemma cvRound_inject_Z x z : (x == inject_Z z)%Q -> cvRound x = z.
Proof.
  intros Hx. unfold cvRound.
  rewrite (Qfloor_comp x (inject_Z z) Hx), Qfloor_Z.
  assert (x - inject_Z z < 1 # 2)%Q as Hlt by lra.
  by rewrite (proj1 (Qlt_alt _ _) Hlt).
Qed.

Lemma cvRound_ge x k : (inject_Z k <= x)%Q -> k <= cvRound x.
Proof.
  intros Hk. apply Qfloor_resp_le in Hk. rewrite Qfloor_Z in Hk.
  pose proof (cvRound_floor x). lia.
Qed.

Lemma cvRound_near x :
  (x - (1 # 2) <= inject_Z (cvRound x))%Q /\
  (inject_Z (cvRound x) <= x + (1 # 2))%Q.
Proof.
  pose proof (Qfloor_le x) as Hlo. pose proof (Qlt_floor x) as Hhi.
  rewrite inject_Z_plus in Hhi.
  unfold cvRound. destruct (_ ?= _)%Q eqn:Hc.
  - pose proof (proj2 (Qeq_alt _ _) Hc) as He.
    destruct (Z.even _); rewrite ?inject_Z_plus;
      change (inject_Z 1) with 1%Q in *; split; lra.
  - pose proof (proj2 (Qlt_alt _ _) Hc) as Hl. split; lra.
  - pose proof (proj2 (Qgt_alt _ _) Hc) as Hg. rewrite inject_Z_plus.
    change (inject_Z 1) with 1%Q in *. split; lra.
Qed.

Lemma scale_shorter_side m n :
  0 < n -> (inject_Z n * (inject_Z m / inject_Z n) == inject_Z m)%Q.
Proof.
  intros Hn. field. intros H0.
  assert (inject_Z 0 < inject_Z n)%Q as Hlt by by rewrite <- Zlt_Qlt.
  change (inject_Z 0) with 0%Q in Hlt. lra.
Qed.

Lemma scale_longer_side a m n :
  0 < n -> n <= a -> 0 < m ->
  (inject_Z m <= inject_Z a * (inject_Z m / inject_Z n))%Q.
Proof.
  intros Hn Ha Hm. rewrite <- (scale_shorter_side m n Hn) at 1.
  apply Qmult_le_compat_r.
  - by rewrite <- Zle_Qle.
  - apply Qle_shift_div_l.
    + replace 0%Q with (inject_Z 0) by reflexivity. by rewrite <- Zlt_Qlt.
    + rewrite Qmult_0_l. replace 0%Q with (inject_Z 0) by reflexivity.
      rewrite <- Zle_Qle. lia.
Qed.

Lemma resize_image_keep image max_size {St} (st : St) :
  shorter_side image < max_size ->
  @Pipeline.resize_image cv St image max_size st = Ok image st.
Proof.
  intros Hlt. unfold Pipeline.resize_image, shorter_side in *.
  by rewrite (proj2 (Z.gtb_lt _ _) Hlt).
Qed.

Lemma resize_image_scale image max_size {St} (st : St) :
  0 < max_size -> max_size <= shorter_side image ->
  let s := (inject_Z max_size / inject_Z (shorter_side image))%Q in
  @Pipeline.resize_image cv St image max_size st =
  Ok (NdArray (cvRound (inject_Z (height image) * s))
              (cvRound (inject_Z (width image) * s))
              (inter_area cv image
                 (cvRound (inject_Z (height image) * s))
                 (cvRound (inject_Z (width image) * s)))) st
  /\ max_size <= cvRound (inject_Z (height image) * s)
  /\ max_size <= cvRound (inject_Z (width image) * s).
Proof.
  intros Hpos Hle s. unfold shorter_side in *.
  assert (max_size <= cvRound (inject_Z (height image) * s)) as Hh.
  { apply cvRound_ge, scale_longer_side; lia. }
  assert (max_size <= cvRound (inject_Z (width image) * s)) as Hw.
  { apply cvRound_ge, scale_longer_side; lia. }
  split; [|done].
  unfold Pipeline.resize_image, cv_resize.
  rewrite Z.gtb_ltb, (proj2 (Z.ltb_ge _ _)) by lia.
  rewrite (proj2 (Z.eqb_neq _ _)) by lia.
  fold s.
  rewrite !(proj2 (Z.leb_gt _ _)) by lia. reflexivity.
Qed.

Lemma scale_by_one a m :
  0 < m -> (inject_Z a * (inject_Z m / inject_Z m) == inject_Z a)%Q.
Proof.
  intros Hm. field. intros H0.
  assert (inject_Z 0 < inject_Z m)%Q as Hlt by by rewrite <- Zlt_Qlt.
  change (inject_Z 0) with 0%Q in Hlt. lra.
Qed.

(** C5: for a positive [max_size], [resize_image] returns an image whose
    shorter side is at most [max_size]; an image whose shorter side is at
    most [max_size] comes back unchanged, in its dimensions and in its
    pixels; and when the image is scaled down, both sides are scaled by the
    one factor [max_size / shorter side], each to the nearest whole pixel.
    The pixels of the result are those of OpenCV's area filter, of which
    only this is used: a destination of the size of the source is a copy
    of the source. *)
Theorem C5_resize_image_no_upscale image max_size {St} (st : St) :
  (forall src, inter_area cv src (height src) (width src) = pixels src) ->
  0 < max_size ->
  exists out,
    @Pipeline.resize_image cv St image max_size st = Ok out st
    /\ shorter_side out <= max_size
    /\ (shorter_side image <= max_size -> out = image)
    /\ (max_size <= shorter_side image ->
        let s := (inject_Z max_size / inject_Z (shorter_side image))%Q in
        ((inject_Z (height image) * s - (1 # 2) <= inject_Z (height out))%Q
         /\ (inject_Z (height out) <= inject_Z (height image) * s + (1 # 2))%Q)
        /\ ((inject_Z (width image) * s - (1 # 2) <= inject_Z (width out))%Q
            /\ (inject_Z (width out) <= inject_Z (width image) * s + (1 # 2))%Q)).
Proof.
  intros Hcopy Hpos.
  destruct (Z_lt_le_dec (shorter_side image) max_size) as [Hlt|Hle].
  - exists image. split; [by apply resize_image_keep|].
    split; [lia|]. split; [done|]. lia.
  - destruct (resize_image_scale image max_size st Hpos Hle) as (Hrun & Hh & Hw).
    eexists. split; [exact Hrun|].
    set (s := (inject_Z max_size / inject_Z (shorter_side image))%Q) in *.
    split; [|split].
    + unfold shorter_side in *; simpl.
      destruct (Z_le_gt_dec (height image) (width image)) as [Hhw|Hhw].
      * assert (cvRound (inject_Z (height image) * s) = max_size) as ->; [|lia].
        apply cvRound_inject_Z. subst s.
        rewrite Z.min_l by done. apply scale_shorter_side. lia.
      * assert (cvRound (inject_Z (width image) * s) = max_size) as ->; [|lia].
        apply cvRound_inject_Z. subst s.
        rewrite Z.min_r by lia. apply scale_shorter_side. lia.
    + intros Hshort. assert (shorter_side image = max_size) as Heq by lia.
      subst s. rewrite Heq.
      rewrite !(cvRound_inject_Z _ _ (scale_by_one _ _ Hpos)).
      rewrite Hcopy. by destruct image.
    + intros _. simpl. split; apply cvRound_near.
Qed.

(** *** The sample of frames without characters *)

Lemma sample_pool_step {A} (pool : list A) (j n : nat) x y :
  (j < n)%nat ->
  pool !! j = Some x ->
  pool !! (n - 1)%nat = Some y ->
  x :: take (n - 1) (<[j := y]> pool) ≡ₚ take n pool.
Proof.
  intros Hj Hx Hy. destruct n as [|m]; [lia|].
  replace (S m - 1)%nat with m in * by lia.
  rewrite (take_S_r pool m y Hy).
  destruct (decide (j = m)) as [->|Hne].
  - assert (x = y) as -> by congruence.
    rewrite list_insert_id by done. apply Permutation_cons_append.
  - rewrite take_insert_lt by lia.
    assert (take m pool !! j = Some x) as Ht.
    { rewrite lookup_take_lt by lia. done. }
    rewrite insert_take_drop by (by eapply lookup_lt_Some).
    rewrite <- (take_drop_middle _ _ _ Ht) at 3.
    rewrite <- Permutation_cons_append, <- !Permutation_middle.
    apply perm_swap.
Qed.

Lemma sample_pool_sample {A} (k : nat) : forall (n : nat) (pool : list A) w,
  (k <= n)%nat -> (n <= length pool)%nat ->
  exists sel w',
    sample_pool k n pool w = Ok sel w'
    /\ length sel = k
    /\ sel ⊆+ take n pool.
Proof.
  induction k as [|k IH]; intros n pool w Hk Hn; simpl.
  - exists [], w. split; [done|]. split; [done|]. apply submseteq_nil_l.
  - unfold mbind, M_bind, randbelow.
    rewrite (proj2 (Nat.eqb_neq n 0)) by lia.
    set (j := (hd 0%nat (random_draws w) mod n)%nat).
    assert (j < n)%nat as Hj by (apply Nat.mod_upper_bound; lia).
    destruct (lookup_lt_is_Some_2 pool j) as [x Hx]; [lia|].
    destruct (lookup_lt_is_Some_2 pool (n - 1)) as [y Hy]; [lia|].
    rewrite Hx, Hy.
    edestruct (IH (n - 1)%nat (<[j := y]> pool)) as (sel & w' & -> & Hlen & Hsub).
    + lia.
    + rewrite length_insert. lia.
    + exists (x :: sel), w'. split; [done|]. split; [simpl; lia|].
      rewrite <- (sample_pool_step pool j n x y) by done.
      by apply submseteq_skip.
Qed.

(** C6: for a count [n_nocharacter_frames] that is not negative, the
    frames selected for export are as many as the smaller of that count
    and the number of candidates; they are picked from the candidates
    without replacement (no candidate is taken more often than it is
    listed); and when the count is not below the number of candidates, the
    selection is the whole candidate list. *)
Theorem C6_selected_frames_count nocharacter_frames n_nocharacter_frames w :
  0 <= n_nocharacter_frames ->
  exists selected_frames w',
    select_frames nocharacter_frames n_nocharacter_frames w
      = Ok selected_frames w'
    /\ Z.of_nat (length selected_frames)
       = Z.min n_nocharacter_frames (Z.of_nat (length nocharacter_frames))
    /\ selected_frames ⊆+ nocharacter_frames
    /\ (Z.of_nat (length nocharacter_frames) <= n_nocharacter_frames ->
        selected_frames = nocharacter_frames).
Proof.
  intros Hn. unfold select_frames.
  destruct (Z.ltb_spec n_nocharacter_frames
              (Z.of_nat (length nocharacter_frames))) as [Hlt|Hge].
  - unfold random_sample.
    rewrite (proj2 (Z.ltb_ge _ _)), (proj2 (Z.ltb_ge _ _)) by lia. simpl.
    destruct (sample_pool_sample (Z.to_nat n_nocharacter_frames)
                (length nocharacter_frames) nocharacter_frames w)
      as (sel & w' & Hrun & Hlen & Hsub); [lia|lia|].
    exists sel, w'. split; [done|]. split; [lia|].
    split; [by rewrite firstn_all in Hsub|lia].
  - exists nocharacter_frames, w. split; [done|]. split; [lia|].
    split; [done|done].
Qed.

End PipelineFacts.

(** *** The example tree *)

Example ex_sync_once :
  ex_sync ex_listing ex_store =
  Ok tt
    {[ "crops/0_alice/.a_meta.json" :=
         {[ "path" := JStr "frames/f.png"; "filename" := JStr "a.png";
            "characters" := JArr [JStr "alice"] ]};
       "crops/1_bob/.b_meta.json" :=
         {[ "path" := JStr "frames/f.png"; "filename" := JStr "b.PNG";
            "characters" := JArr [JStr "bob"] ]};
       "frames/.f_meta.json" :=
         {[ "filename" := JStr "f.png";
            "characters" := JArr [JStr "alice"; JStr "bob"] ]} ]}.
Proof. vm_compute. reflexivity. Qed.

Lemma C1_frame_characters_reset_once_witness :
  chars_at (final_state (ex_sync ex_listing ex_store)) "frames/.f_meta.json"
    = Some (JArr [JStr "alice"; JStr "bob"])
  /\ chars_at (final_state (ex_sync ex_listing_rev ex_store)) "frames/.f_meta.json"
    = Some (JArr [JStr "bob"; JStr "alice"])
  /\ ["bob"; "alice"] ≡ₚ ["alice"; "bob"].
Proof.
  apply (C1_frame_characters_reset_once meta_names_beside default_record
           "crops" ex_listing ex_listing_rev ex_store
           (final_state (ex_sync ex_listing ex_store))
           (final_state (ex_sync ex_listing_rev ex_store)) "frames/f.png").
  - apply perm_swap.
  - repeat constructor; try (vm_compute; eauto; congruence).
  - constructor. vm_compute. reflexivity.
  - vm_compute. reflexivity.
  - vm_compute. reflexivity.
Defined.

(** C1 as stated fails: the final list depends on the order in which the
    crop folders are processed. *)
Lemma C1_order_counterexample :
  ex_listing_rev ≡ₚ ex_listing
  /\ returned (ex_sync ex_listing ex_store) = true
  /\ returned (ex_sync ex_listing_rev ex_store) = true
  /\ chars_at (final_state (ex_sync ex_listing ex_store)) "frames/.f_meta.json"
     ≠ chars_at (final_state (ex_sync ex_listing_rev ex_store))
         "frames/.f_meta.json".
Proof.
  split; [apply perm_swap|]. split; [vm_compute; reflexivity|].
  split; [vm_compute; reflexivity|]. vm_compute. congruence.
Qed.

Lemma C3_second_run_same_characters_witness :
  exists S2,
    ex_sync ex_listing (final_state (ex_sync ex_listing ex_store)) = Ok tt S2
    /\ dom S2 = dom (final_state (ex_sync ex_listing ex_store))
    /\ forall p, chars_at S2 p
                 = chars_at (final_state (ex_sync ex_listing ex_store)) p.
Proof.
  apply (C3_second_run_same_characters meta_names_beside default_record
           "crops" ex_listing ex_store).
  vm_compute. reflexivity.
Defined.

(** *** The example export *)

Lemma C4_oversized_crop_not_exported_witness :
  export_crop cv_with_webp meta_names_beside "dst" 4 ".webp"
    "crops/1_bob/b.jpg" ex_world = Ok tt ex_world.
Proof.
  apply (C4_oversized_crop_not_exported cv_with_webp meta_names_beside
           "dst" 4 ".webp" "crops/1_bob/b.jpg" ex_world
           {[ "path" := JStr "frames/f.png"; "filename" := JStr "b.jpg";
              "characters" := JArr [JStr "bob"] ]}
           "frames/f.png" (NdArray 4 5 (ex_pixels 20)) ex_frame).
  - vm_compute. reflexivity.
  - vm_compute. reflexivity.
  - vm_compute. reflexivity.
  - vm_compute. reflexivity.
  - vm_compute. reflexivity.
Defined.

Lemma C5_resize_image_no_upscale_witness :
  exists out,
    resize_image cv_with_webp ex_frame 4 tt = Ok out tt
    /\ shorter_side out <= 4
    /\ (shorter_side ex_frame <= 4 -> out = ex_frame)
    /\ (4 <= shorter_side ex_frame ->
        let s := (inject_Z 4 / inject_Z (shorter_side ex_frame))%Q in
        ((inject_Z (height ex_frame) * s - (1 # 2) <= inject_Z (height out))%Q
         /\ (inject_Z (height out) <= inject_Z (height ex_frame) * s + (1 # 2))%Q)
        /\ ((inject_Z (width ex_frame) * s - (1 # 2) <= inject_Z (width out))%Q
            /\ (inject_Z (width out) <= inject_Z (width ex_frame) * s + (1 # 2))%Q)).
Proof.
  apply (C5_resize_image_no_upscale cv_with_webp ex_frame 4 tt).
  - intros src. simpl. unfold sample_pixels. by rewrite !Z.eqb_refl.
  - lia.
Defined.

Lemma C6_selected_frames_count_witness :
  exists selected_frames w',
    select_frames ["frames/g.png"; "frames/h.png"] 1 ex_world
      = Ok selected_frames w'
    /\ Z.of_nat (length selected_frames) = Z.min 1 (Z.of_nat 2)
    /\ selected_frames ⊆+ ["frames/g.png"; "frames/h.png"]
    /\ (Z.of_nat 2 <= 1 ->
        selected_frames = ["frames/g.png"; "frames/h.png"]).
Proof.
  apply (C6_selected_frames_count ["frames/g.png"; "frames/h.png"] 1 ex_world).
  lia.
Defined.

Lemma C7_missing_metadata_is_fatal_witness :
  ex_sync ex_listing ex_store_missing
    = Raise missing_crop_meta
        (meta_files
           (final_state
              (sync_crops meta_names_beside default_record
                 [("alice", "crops/0_alice/a.png")]
                 (SyncState ex_store_missing ∅))))
  /\ ex_export cv_with_webp 4 ".webp" 1 ex_world_missing
     = Raise missing_crop_meta (prepared ex_world_missing "dst")
  /\ exists w',
      ex_save cv_with_webp ex_frame "frames/h.png" "dst/full" ".png" ex_world
        = Raise missing_meta_for_export w'
      /\ meta w' = meta ex_world /\ stdout w' = stdout ex_world.
Proof.
  destruct (C7_missing_metadata_is_fatal cv_with_webp meta_names_beside
              default_record images_under) as (Hsync & Hcrop & Hsave & _).
  split; [|split].
  - apply (Hsync "crops" ex_listing [("alice", "crops/0_alice/a.png")]
             ("bob", "crops/1_bob/b.PNG") []).
    + vm_compute. reflexivity.
    + vm_compute. reflexivity.
    + vm_compute. reflexivity.
  - apply (Hcrop "crops" "frames" "dst" 4 ".webp" 1 ["crops/1_bob/b.jpg"]
             "crops/0_alice/a.png" []).
    + vm_compute. reflexivity.
    + vm_compute. reflexivity.
    + vm_compute. reflexivity.
  - apply Hsave.
    + vm_compute. reflexivity.
    + vm_compute. reflexivity.
Defined.

(** C7 as stated fails: with a ['.webp'] encoding failure,
    [save_image_and_meta] returns without an error although the source
    image has no metadata record. *)
Lemma C7_webp_failure_counterexample :
  meta ex_world !! (meta_names_beside "frames/h.png").1 = None
  /\ ex_save cv_without_webp ex_frame "frames/h.png" "dst/full" ".webp" ex_world
     = Ok tt (with_line ex_world
                (encoding_report "dst/full/h.webp"
                   "could not find encoder for the specified extension")).
Proof. split; vm_compute; reflexivity. Qed.

Lemma C8_webp_encoding_failure_is_skipped_witness :
  ex_save cv_without_webp ex_frame "frames/g.png" "dst/full" ".webp" ex_world
  = Ok tt (with_line ex_world
             (encoding_report
                (adjusted_path "frames/g.png" "dst/full" ".webp")
                "could not find encoder for the specified extension")).
Proof.
  destruct (C8_webp_encoding_failure_is_skipped cv_without_webp
              meta_names_beside) as [Hsave _].
  apply Hsave. vm_compute. reflexivity.
Defined.

(** C8 as stated fails: for an extension other than ['.webp'] an encoding
    failure of [cv2.imwrite] is not caught; the call raises and the export
    stops at the first image it tries to write. *)
Lemma C8_other_extension_counterexample :
  ex_save cv_with_webp ex_frame "frames/g.png" "dst/full" ".tga" ex_world
    = Raise (CvError "could not find a writer for the specified extension")
            ex_world
  /\ ex_export cv_with_webp 4 ".tga" 5 ex_world
     = Raise (CvError "could not find a writer for the specified extension")
             (prepared ex_world "dst").
Proof. split; vm_compute; reflexivity. Qed.

Lemma C9_image_written_before_metadata_check_witness :
  ex_save cv_with_webp ex_frame "frames/h.png" "dst/full" ".png" ex_world
    = Raise missing_meta_for_export
        (with_image ex_world (adjusted_path "frames/h.png" "dst/full" ".png")
           (raw_encode ex_frame))
  /\ image_files
       (with_image ex_world (adjusted_path "frames/h.png" "dst/full" ".png")
          (raw_encode ex_frame))
       !! adjusted_path "frames/h.png" "dst/full" ".png"
     = Some (raw_encode ex_frame)
  /\ PyStr.endswith (adjusted_path "frames/h.png" "dst/full" ".png") ".png"
     = true.
Proof.
  apply (C9_image_written_before_metadata_check cv_with_webp
           meta_names_beside ex_frame "frames/h.png" "dst/full" ".png"
           ex_world (raw_encode ex_frame)).
  - vm_compute. reflexivity.
  - vm_compute. reflexivity.
Defined.

(** C9 as stated fails: when [cv2.imwrite] returns [False], the call
    still raises the error of line 145 for the missing record, and no
    image file is at the destination path. *)
Lemma C9_imwrite_false_counterexample :
  meta ex_world !! (meta_names_beside "frames/h.png").1 = None
  /\ ex_save cv_write_refused ex_frame "frames/h.png" "dst/full" ".png" ex_world
     = Raise missing_meta_for_export ex_world
  /\ image_files ex_world !! adjusted_path "frames/h.png" "dst/full" ".png"
     = None.
Proof. repeat split; vm_compute; reflexivity. Qed.

Lemma C10_crop_without_path_raises_keyerror_witness :
  export_crop cv_with_webp meta_names_beside "dst" 4 ".webp"
    "crops/0_alice/a.png" (prepared ex_world_no_path "dst")
    = Raise (KeyError "path") (prepared ex_world_no_path "dst")
  /\ ex_export cv_with_webp 4 ".webp" 1 ex_world_no_path
     = Raise (KeyError "path") (prepared ex_world_no_path "dst").
Proof.
  apply (C10_crop_without_path_raises_keyerror cv_with_webp meta_names_beside
           default_record images_under "crops" "frames" "dst" 4 ".webp" 1
           ["crops/1_bob/b.jpg"] "crops/0_alice/a.png" [] ex_world_no_path
           (prepared ex_world_no_path "dst")
           {[ "filename" := JStr "a.png"; "characters" := JArr [JStr "alice"] ]}
           (JStr "alice") []).
  - vm_compute. reflexivity.
  - vm_compute. reflexivity.
  - vm_compute. reflexivity.
  - vm_compute. reflexivity.
  - vm_compute. reflexivity.
Defined.

(** C2 fails on the code: the image is written under a name that ends in
    the requested extension, but the ['filename'] of the exported record
    is the source one with ['.png'] replaced, so the record of a [.jpg]
    crop exported as ['.webp'] still names [b.jpg]. *)
Theorem C2_filename_extension_not_rewritten :
  let out := ex_save cv_with_webp (NdArray 4 5 (ex_pixels 20))
               "crops/1_bob/b.jpg" "dst/cropped" ".webp" ex_world in
  returned out = true
  /\ is_Some (image_files (final_state out) !! "dst/cropped/b.webp")
  /\ field_at "filename" (meta (final_state out)) "dst/cropped/.b_meta.json"
     = Some (JStr "b.jpg")
  /\ PyStr.endswith "b.jpg" ".webp" = false.
Proof.
  vm_compute. split; [done|]. split; [eauto|]. split; done.
Qed.

(** * Further properties *)

(** ** Folder names *)

Lemma split_nonempty c s : PyStr.split c s ≠ [].
Proof.
  destruct s as [|a r]; simpl; [done|].
  destruct (Ascii.eqb a c); [done|]. by destruct (PyStr.split c r).
Qed.

Lemma concat_cons_split sep x c s :
  String.concat sep (x :: PyStr.split c s)
  = x +:+ sep +:+ String.concat sep (PyStr.split c s).
Proof.
  pose proof (split_nonempty c s). simpl.
  by destruct (PyStr.split c s).
Qed.

Lemma join_split c s :
  PyStr.join (String c "") (PyStr.split c s) = s.
Proof.
  unfold PyStr.join. induction s as [|a r IH]; [reflexivity|].
  simpl PyStr.split. destruct (Ascii.eqb_spec a c) as [->|Hne].
  - rewrite concat_cons_split, IH. reflexivity.
  - pose proof (split_nonempty c r) as Hs.
    destruct (PyStr.split c r) as [|h t] eqn:Hsplit; [done|].
    rewrite <- IH. simpl. destruct t; reflexivity.
Qed.

Lemma contains_char_cons c a r :
  PyStr.contains (String a r) (String c "") = false ->
  a ≠ c /\ PyStr.contains r (String c "") = false.
Proof.
  simpl. destruct (ascii_dec c a) as [->|Hne].
  - by destruct r.
  - simpl. intros Hr. split; [congruence|]. by destruct r.
Qed.

Lemma split_before_sep c p r :
  PyStr.contains p (String c "") = false ->
  PyStr.split c (p +:+ String c r) = p :: PyStr.split c r.
Proof.
  induction p as [|a p IH]; intros Hp.
  - change ("" +:+ String c r) with (String c r). simpl.
    by rewrite Ascii.eqb_refl.
  - apply contains_char_cons in Hp as [Hne Hp].
    rewrite append_cons. simpl.
    rewrite (proj2 (Ascii.eqb_neq a c)) by done.
    by rewrite IH.
Qed.

Lemma split_without_sep c p :
  PyStr.contains p (String c "") = false -> PyStr.split c p = [p].
Proof.
  induction p as [|a p IH]; intros Hp; [reflexivity|].
  apply contains_char_cons in Hp as [Hne Hp]. simpl.
  rewrite (proj2 (Ascii.eqb_neq a c)) by done. by rewrite IH.
Qed.

Lemma char_name_of_token token rest :
  PyStr.contains token "_" = false ->
  char_name_of (token +:+ "_" +:+ rest) = rest /\ char_name_of token = "".
Proof.
  intros Htoken. unfold char_name_of. split.
  - change ("_" +:+ rest) with (String "_"%char rest).
    rewrite split_before_sep by done. simpl tail. apply join_split.
  - by rewrite split_without_sep.
Qed.

(** X1: the character name of a folder is what follows its first
    underscore, further underscores included; a folder name without an
    underscore gives the empty name. *)
Theorem X1_char_name_after_first_underscore token rest :
  PyStr.contains token "_" = false ->
  char_name_of (token +:+ "_" +:+ rest) = rest
  /\ char_name_of token = "".
Proof. apply char_name_of_token. Qed.

Lemma X1_char_name_after_first_underscore_witness :
  char_name_of ("12" +:+ "_" +:+ "alice_in_red") = "alice_in_red"
  /\ char_name_of "12" = "".
Proof.
  apply (X1_char_name_after_first_underscore "12" "alice_in_red").
  reflexivity.
Defined.

Lemma startswith_append p r : PyStr.startswith (p +:+ r) p = true.
Proof.
  unfold PyStr.startswith. induction p as [|a p IH]; [by destruct r|].
  rewrite append_cons. simpl. by destruct (ascii_dec a a).
Qed.

Lemma crops_app crop_dir l1 l2 :
  crops crop_dir (l1 ++ l2) = crops crop_dir l1 ++ crops crop_dir l2.
Proof. unfold crops. apply flat_map_app. Qed.

(** X2: a folder named [<token>_noise...] is left alone whatever it
    holds: a run over a listing with such a folder ends as the run over
    the listing without it, in its result and in the metadata files. *)
Theorem X2_noise_folder_is_ignored get_corr_meta_names default_metadata
    crop_dir before after token rest files S0 :
  PyStr.contains token "_" = false ->
  save_characters_to_meta get_corr_meta_names default_metadata crop_dir
    (before ++ DirEntry (token +:+ "_noise" +:+ rest) files :: after) S0
  = save_characters_to_meta get_corr_meta_names default_metadata crop_dir
      (before ++ after) S0.
Proof.
  intros Htoken. unfold save_characters_to_meta.
  rewrite !sync_loop_crops, !crops_app. simpl.
  assert (folder_crops crop_dir
            (DirEntry (token +:+ "_noise" +:+ rest) files) = []) as ->; [|done].
  unfold folder_crops; simpl.
  change ("_noise" +:+ rest) with ("_" +:+ "noise" +:+ rest).
  destruct (char_name_of_token token ("noise" +:+ rest) Htoken) as [-> _].
  by rewrite startswith_append.
Qed.

Lemma X2_noise_folder_is_ignored_witness :
  ex_sync ex_listing ex_store
  = ex_sync [ DirEntry "0_alice" (Some ["a.png"; ".a_meta.json"]);
              DirEntry "1_bob" (Some ["b.PNG"; "b.txt"]);
              DirEntry "notes.txt" None ] ex_store.
Proof.
  apply (X2_noise_folder_is_ignored meta_names_beside default_record "crops"
           [ DirEntry "0_alice" (Some ["a.png"; ".a_meta.json"]);
             DirEntry "1_bob" (Some ["b.PNG"; "b.txt"]) ]
           [ DirEntry "notes.txt" None ] "2" "_misc" (Some ["n.png"])
           ex_store).
  reflexivity.
Defined.

(** ** What the synchronizer keeps *)

Section SynchronizerKeeps.

Variable get_corr_meta_names : string -> string * string.
Variable default_metadata : string -> gmap string json.

Abbreviation meta_path p := (get_corr_meta_names p).1.
Abbreviation crop_step := (sync_crop get_corr_meta_names default_metadata).
Abbreviation orig_record := (Sync.orig_record get_corr_meta_names default_metadata).
Abbreviation sync_crops := (Sync.sync_crops get_corr_meta_names default_metadata).
Abbreviation save_characters_to_meta :=
  (Sync.save_characters_to_meta get_corr_meta_names default_metadata).

Lemma kept_refl S : kept S S.
Proof. intros p d Hd. eauto. Qed.

Lemma kept_trans S T U : kept S T -> kept T U -> kept S U.
Proof.
  intros HST HTU p d Hd. destruct (HST p d Hd) as (d' & Hd' & Heq).
  destruct (HTU p d' Hd') as (d'' & Hd'' & Heq').
  exists d''. split; [done|]. intros key Hkey.
  by rewrite Heq', Heq.
Qed.

Lemma kept_insert_chars S p (d : gmap string json) v :
  S !! p = Some d -> kept S (<[p := <["characters" := v]> d]> S).
Proof.
  intros Hd q e He. rewrite lookup_insert. case_decide as Hpq.
  - subst q. assert (e = d) as -> by congruence.
    eexists. split; [done|]. intros key Hkey. by rewrite lookup_insert_ne.
  - eauto.
Qed.

Lemma kept_insert_new S p (d : gmap string json) :
  S !! p = None -> kept S (<[p := d]> S).
Proof.
  intros Hd q e He. rewrite lookup_insert. case_decide as Hpq.
  - subst q. congruence.
  - eauto.
Qed.

Lemma sync_crop_kept char_name img_path st :
  kept (meta_files st) (meta_files (final_state (crop_step char_name img_path st))).
Proof.
  rewrite sync_crop_unfold. destruct st as [S E]; simpl.
  destruct (S !! meta_path img_path) as [d|] eqn:Hd; [|apply kept_refl].
  destruct (d !! "path") as [[| | |P| |]|] eqn:Hp; try apply kept_refl.
  - destruct (appended _ _) as [e|v]; simpl; [apply kept_refl|].
    eapply kept_trans.
    + instantiate (1 := <[meta_path P :=
                           <["characters" := v]> (orig_record (SyncState S E) P)]> S).
      unfold Sync.orig_record; simpl.
      destruct (S !! meta_path P) as [o|] eqn:Ho; simpl.
      * by apply kept_insert_chars.
      * by apply kept_insert_new.
    + destruct (decide (meta_path P = meta_path img_path)) as [Heq|Hne].
      * rewrite Heq, insert_insert_eq.
        intros q e. rewrite !lookup_insert. case_decide as Hq; [|eauto].
        intros [= <-]. eexists. split; [done|]. intros key Hkey.
        unfold crop_record. rewrite !lookup_insert_ne by done.
        unfold Sync.orig_record; simpl. rewrite <- Heq in Hd.
        rewrite Heq, <- Heq, Hd. done.
      * unfold crop_record. apply kept_insert_chars.
        by rewrite lookup_insert_ne.
  - simpl. unfold crop_record. by apply kept_insert_chars.
Qed.

Lemma sync_crops_kept l st :
  kept (meta_files st) (meta_files (final_state (sync_crops l st))).
Proof.
  unfold Sync.sync_crops. revert st.
  induction l as [|[c img] l IH]; intros st; simpl; [apply kept_refl|].
  unfold mbind, M_bind.
  pose proof (sync_crop_kept c img st) as Hstep.
  destruct (crop_step c img st) as [[] st1|e st1]; simpl in *; [|done].
  eapply kept_trans; [done|apply IH].
Qed.

(** X4: whether it completes or raises, a run deletes no metadata file
    and changes no field of an existing file other than ['characters']. *)
Theorem X4_run_keeps_other_fields crop_dir listing S0 p d :
  S0 !! p = Some d ->
  exists d',
    final_state (save_characters_to_meta crop_dir listing S0) !! p = Some d'
    /\ forall key, key ≠ "characters" -> d' !! key = d !! key.
Proof.
  intros Hd.
  pose proof (sync_crops_kept (crops crop_dir listing) (SyncState S0 ∅)) as Hk.
  unfold Sync.save_characters_to_meta. rewrite sync_loop_crops.
  destruct (sync_crops _ _) as [[] st|e st]; simpl in *; by apply Hk.
Qed.

(** *** The label of a crop *)

Lemma sync_crop_labelled S0 all done char_name img_path st st1 :
  crop_step char_name img_path st = Ok tt st1 ->
  future S0 (meta_files st) ->
  crop_file_own get_corr_meta_names S0 all (char_name, img_path) ->
  (forall c, c ∈ done -> meta_path c.2 ≠ meta_path img_path) ->
  (forall c, c ∈ done ->
     meta_path c.2 ∈ crop_meta_paths get_corr_meta_names all) ->
  crops_labelled get_corr_meta_names done (meta_files st) ->
  crops_labelled get_corr_meta_names (done ++ [(char_name, img_path)])
    (meta_files st1).
Proof.
  intros Hstep Hfut [Hex Hown] Hfresh Hall Hdone.
  destruct st as [S E]; simpl in *.
  rewrite sync_crop_unfold in Hstep; simpl in Hstep.
  destruct (Hfut _ Hex) as [[d Hd] Hpath].
  rewrite (field_at_Some _ _ _ _ Hd) in Hpath. rewrite Hd in Hstep.
  rewrite <- Hpath in Hown.
  destruct (d !! "path") as [[| | |P| |]|] eqn:Hp; try done.
  - destruct (appended _ _) as [e|v]; [done|].
    injection Hstep as <-; simpl.
    intros c [Hc|Hc]%elem_of_app.
    + rewrite !field_at_insert.
      rewrite decide_False by (intros Heq; by apply (Hfresh c Hc)).
      rewrite decide_False; [by apply Hdone|].
      intros Heq. apply Hown. rewrite Heq. by apply Hall.
    + apply list_elem_of_singleton in Hc as ->; simpl.
      by rewrite field_at_insert, decide_True, crop_record_chars.
  - injection Hstep as <-; simpl.
    intros c [Hc|Hc]%elem_of_app.
    + rewrite field_at_insert.
      rewrite decide_False by (intros Heq; by apply (Hfresh c Hc)).
      by apply Hdone.
    + apply list_elem_of_singleton in Hc as ->; simpl.
      by rewrite field_at_insert, decide_True, crop_record_chars.
Qed.

Lemma sync_crops_labelled S0 rest : forall done st stn,
  sync_crops rest st = Ok tt stn ->
  future S0 (meta_files st) ->
  NoDup (crop_meta_paths get_corr_meta_names (done ++ rest)) ->
  (forall c, c ∈ rest ->
     crop_file_own get_corr_meta_names S0 (done ++ rest) c) ->
  crops_labelled get_corr_meta_names done (meta_files st) ->
  crops_labelled get_corr_meta_names (done ++ rest) (meta_files stn).
Proof.
  unfold Sync.sync_crops.
  induction rest as [|[c img] rest IH]; intros done st stn; simpl.
  - intros [= <-] _ _ _ Hdone. by rewrite app_nil_r.
  - unfold mbind, M_bind.
    destruct (crop_step c img st) as [[] st1|] eqn:Hstep; [|done].
    intros Hrest Hfut Hnodup Hown Hdone.
    rewrite (cons_middle (c, img) done rest), app_assoc in *.
    apply (IH _ st1); try done.
    + eapply future_trans; [done|by eapply sync_crop_future].
    + intros x Hx. apply Hown. by apply list_elem_of_further.
    + eapply sync_crop_labelled; try done.
      * apply Hown, list_elem_of_here.
      * intros x Hx Heq. unfold crop_meta_paths in Hnodup.
        rewrite !fmap_app in Hnodup.
        apply NoDup_app in Hnodup as [Hnodup _].
        apply NoDup_app in Hnodup as (_ & Hdisj & _).
        apply (Hdisj (meta_path x.2)).
        -- by apply (list_elem_of_fmap_2 (fun c => meta_path c.2)).
        -- rewrite Heq. apply list_elem_of_here.
      * intros x Hx. unfold crop_meta_paths.
        apply (list_elem_of_fmap_2 (fun c => meta_path c.2)).
        apply elem_of_app. left. apply elem_of_app. by left.
Qed.

(** X3: when the crops have metadata files of their own (no two crops
    share a file, and no file of a crop is the file of a linked original
    frame), a completed run leaves in the record of every processed crop
    the single name derived from its folder. *)
Theorem X3_crop_record_has_folder_name crop_dir listing S0 S1 :
  NoDup (crop_meta_paths get_corr_meta_names (crops crop_dir listing)) ->
  Forall (crop_file_own get_corr_meta_names S0 (crops crop_dir listing))
         (crops crop_dir listing) ->
  save_characters_to_meta crop_dir listing S0 = Ok tt S1 ->
  Forall (fun c => chars_at S1 (meta_path c.2) = Some (JArr [JStr c.1]))
         (crops crop_dir listing).
Proof.
  intros Hnodup Hown [E1 Hrun]%save_characters_to_meta_crops.
  rewrite Forall_forall in Hown. apply Forall_forall. intros c Hc.
  assert (crops_labelled get_corr_meta_names ([] ++ crops crop_dir listing)
            (meta_files (SyncState S1 E1))) as Hlab.
  { apply (sync_crops_labelled S0 _ [] _ _ Hrun); simpl;
      try done; try apply future_refl.
    intros x Hx. by apply elem_of_nil in Hx. }
  by apply Hlab.
Qed.

(** *** The files a run creates *)






End SynchronizerKeeps.


Lemma X3_crop_record_has_folder_name_witness :
  Forall (fun c => chars_at (final_state (ex_sync ex_listing ex_store))
                     (meta_names_beside c.2).1 = Some (JArr [JStr c.1]))
         (crops "crops" ex_listing).
Proof.
  apply (X3_crop_record_has_folder_name meta_names_beside default_record
           "crops" ex_listing ex_store).
  - apply (bool_decide_unpack _). vm_compute. exact I.
  - repeat constructor; try (vm_compute; eauto; fail);
      apply (bool_decide_unpack _); vm_compute; exact I.
  - vm_compute. reflexivity.
Defined.

Lemma X4_run_keeps_other_fields_witness :
  exists d',
    final_state (ex_sync ex_listing ex_store) !! "crops/0_alice/.a_meta.json"
      = Some d'
    /\ forall key, key ≠ "characters" ->
         d' !! key
         = ({[ "path" := JStr "frames/f.png"; "filename" := JStr "a.png" ]}
              : gmap string json) !! key.
Proof.
  apply (X4_run_keeps_other_fields meta_names_beside default_record "crops"
           ex_listing ex_store "crops/0_alice/.a_meta.json").
  vm_compute. reflexivity.
Defined.


(** ** More on [resize_image] *)

Lemma cvRound_le x k : (x <= inject_Z k)%Q -> cvRound x <= k.
Proof.
  intros Hk. pose proof (Qfloor_resp_le _ _ Hk) as Hf. rewrite Qfloor_Z in Hf.
  destruct (Z_lt_le_dec (Qfloor x) k) as [Hlt|Hge].
  - pose proof (cvRound_floor x). lia.
  - assert (Qfloor x = k) as Heq by lia.
    pose proof (Qfloor_le x) as Hlo. rewrite Heq in Hlo.
    rewrite (cvRound_inject_Z x k); [lia|]. by apply Qle_antisym.
Qed.

Lemma scale_down_side a m n :
  0 < m -> m <= n -> 0 <= a ->
  (inject_Z a * (inject_Z m / inject_Z n) <= inject_Z a)%Q.
Proof.
  intros Hm Hn Ha.
  assert (0 < inject_Z n)%Q as Hn0.
  { replace 0%Q with (inject_Z 0) by reflexivity. rewrite <- Zlt_Qlt. lia. }
  assert (inject_Z m / inject_Z n <= 1)%Q as Hs.
  { apply Qle_shift_div_r; [done|]. rewrite Qmult_1_l. by rewrite <- Zle_Qle. }
  assert (0 <= inject_Z a)%Q as Ha0.
  { replace 0%Q with (inject_Z 0) by reflexivity. by rewrite <- Zle_Qle. }
  rewrite <- (Qmult_1_r (inject_Z a)) at 2.
  rewrite (Qmult_comm (inject_Z a) _), (Qmult_comm (inject_Z a) 1).
  by apply Qmult_le_compat_r.
Qed.

Section ResizeFacts.

Variable cv : opencv.

(** X6: for a positive [max_size], [resize_image] returns, and never
    returns an image with a side longer than that side of the input. *)
Theorem X6_resize_image_never_enlarges image max_size {St} (st : St) :
  0 < max_size ->
  exists out,
    @resize_image cv St image max_size st = Ok out st
    /\ height out <= height image
    /\ width out <= width image.
Proof.
  intros Hpos.
  destruct (Z_lt_le_dec (shorter_side image) max_size) as [Hlt|Hle].
  - exists image. split; [by apply resize_image_keep|]. lia.
  - destruct (resize_image_scale cv image max_size st Hpos Hle)
      as (Hrun & _ & _).
    eexists. split; [exact Hrun|]. unfold shorter_side in *. simpl.
    split; apply cvRound_le, scale_down_side; lia.
Qed.

(** X7: resizing twice to the same positive [max_size] gives what
    resizing once gives, given that the area filter copies a source whose
    size is the destination size. *)
Theorem X7_resize_image_idempotent image max_size {St} (st : St) :
  (forall src, inter_area cv src (height src) (width src) = pixels src) ->
  0 < max_size ->
  exists out,
    @resize_image cv St image max_size st = Ok out st
    /\ @resize_image cv St out max_size st = Ok out st.
Proof.
  intros Hcopy Hpos.
  destruct (Z_lt_le_dec (shorter_side image) max_size) as [Hlt|Hle].
  - exists image. split; by apply resize_image_keep.
  - destruct (resize_image_scale cv image max_size st Hpos Hle)
      as (Hrun & Hh & Hw).
    eexists. split; [exact Hrun|].
    set (out := NdArray _ _ _) in *.
    assert (shorter_side out = max_size) as Hshort.
    { unfold shorter_side in *; simpl.
      destruct (Z_le_gt_dec (height image) (width image)) as [Hhw|Hhw].
      - assert (cvRound (inject_Z (height image)
                  * (inject_Z max_size
                     / inject_Z (height image `min` width image)))
                = max_size) as Heq; [|lia].
        apply cvRound_inject_Z. rewrite Z.min_l by done.
        apply scale_shorter_side. lia.
      - assert (cvRound (inject_Z (width image)
                  * (inject_Z max_size
                     / inject_Z (height image `min` width image)))
                = max_size) as Heq; [|lia].
        apply cvRound_inject_Z. rewrite Z.min_r by lia.
        apply scale_shorter_side. lia. }
    destruct (resize_image_scale cv out max_size st Hpos) as (Hrun2 & _ & _);
      [lia|].
    rewrite Hrun2, Hshort.
    rewrite !(cvRound_inject_Z _ _ (scale_by_one _ _ Hpos)).
    rewrite Hcopy. by destruct out.
Qed.

End ResizeFacts.

Lemma X6_resize_image_never_enlarges_witness :
  exists out,
    resize_image cv_with_webp ex_frame 4 tt = Ok out tt
    /\ height out <= height ex_frame
    /\ width out <= width ex_frame.
Proof.
  apply (X6_resize_image_never_enlarges cv_with_webp ex_frame 4 tt). lia.
Defined.

Lemma X7_resize_image_idempotent_witness :
  exists out,
    resize_image cv_with_webp ex_frame 4 tt = Ok out tt
    /\ resize_image cv_with_webp out 4 tt = Ok out tt.
Proof.
  apply (X7_resize_image_idempotent cv_with_webp ex_frame 4 tt).
  - intros src. simpl. unfold sample_pixels. by rewrite !Z.eqb_refl.
  - lia.
Defined.
